(** * Scrubby Zoom: the zoom estimator and the drag state machine

    A shallow embedding of [scrubby_zoom/scrubby_zoom.py].  Python floats are
    IEEE binary64 numbers, so they are modelled by Rocq's primitive [float];
    the host application (Krita and Qt) is a record of the accessors the
    plugin calls, each of which may raise; the plugin object is a record
    threaded through its methods. *)

Set Warnings "-inexact-float".
From Stdlib Require Import Floats ZArith Ascii String Lia ZifyBool.
From stdpp Require Import gmap strings pretty.

Notation "x >? y" := (PrimFloat.ltb y x) (at level 70, no associativity) : float_scope.
Notation "x >=? y" := (PrimFloat.leb y x) (at level 70, no associativity) : float_scope.

(** ** Exceptions *)

(** The result of evaluating a Python expression: a value, or an exception.
    Every handler in the source is [except Exception], so one exceptional
    outcome is enough. *)
Inductive outcome (A : Type) : Type :=
| Returns (a : A)
| Raises.
Arguments Returns {A} a.
Arguments Raises {A}.

#[global] Instance outcome_ret : MRet outcome := fun A a => Returns a.
#[global] Instance outcome_bind : MBind outcome := fun A B k o =>
  match o with
  | Returns a => k a
  | Raises => Raises
  end.

#[global] Instance outcome_fmap : FMap outcome := fun A B f o =>
  match o with
  | Returns a => Returns (f a)
  | Raises => Raises
  end.

(** [try: body / except Exception: handler]. *)
Definition try_except {A : Type} (body : outcome A) (handler : A) : A :=
  match body with
  | Returns a => a
  | Raises => handler
  end.

(** ** Python float arithmetic *)

Module Py.

(** [x / y]: ZeroDivisionError on a zero divisor of either sign. *)
Definition truediv (x y : float) : outcome float :=
  if (y =? 0)%float then Raises else Returns (x / y)%float.

(** [min(a, b)] keeps its first argument unless the second is smaller. *)
Definition min (a b : float) : float := if (b <? a)%float then b else a.

(** [max(a, b)] keeps its first argument unless the second is larger. *)
Definition max (a b : float) : float := if (b >? a)%float then b else a.

(** [float(n)] for an int: nearest binary64, OverflowError beyond the range. *)
Definition float_of_int (n : Z) : outcome float :=
  let f := SF2Prim (binary_normalize prec emax n 0 false) in
  if is_infinity f then Raises else Returns f.

(** The binary64 nearest to the ratio [n / d], ties to even. *)
Definition float_of_ratio (n : N) (d : positive) : float :=
  match n with
  | N0 => 0%float
  | Npos p =>
      let '(q, e, l) := SFdiv_core_binary prec emax (Zpos p) 0 (Zpos d) 0 in
      SF2Prim (binary_round_aux prec emax false q e l)
  end.

(** Values a host getter may hand back to [float(...)]. *)
Inductive object : Type :=
| Float (f : float)
| Int (n : Z)
| None_.

(** [float(o)]: TypeError on [None]. *)
Definition to_float (o : object) : outcome float :=
  match o with
  | Float f => Returns f
  | Int n => float_of_int n
  | None_ => Raises
  end.

End Py.

(** ** Text of the zoom controls *)

(** A [string] is a run of 8-bit characters, and the classes below are those
    of [\s], [\d] and [lower] on ASCII text; on a Python [str] the same
    patterns also take the blanks and digits of the rest of Unicode.  The
    functions of this module stand for the source on ASCII text. *)
Module Text.

Definition is_space (c : ascii) : bool :=
  let n := nat_of_ascii c in
  ((9 <=? n) && (n <=? 13) || (28 <=? n) && (n <=? 32))%nat.

Definition is_digit (c : ascii) : bool :=
  let n := nat_of_ascii c in ((48 <=? n) && (n <=? 57))%nat.

Definition is_dot (c : ascii) : bool := (nat_of_ascii c =? 46)%nat.
Definition is_percent (c : ascii) : bool := (nat_of_ascii c =? 37)%nat.
Definition is_at (c : ascii) : bool := (nat_of_ascii c =? 64)%nat.

Definition lower_ascii (c : ascii) : ascii :=
  let n := nat_of_ascii c in
  if ((65 <=? n) && (n <=? 90))%nat then ascii_of_nat (n + 32) else c.

(** [s.lower()] *)
Fixpoint lower (s : string) : string :=
  match s with
  | EmptyString => EmptyString
  | String c s' => String (lower_ascii c) (lower s')
  end.

(** [needle in s] *)
Fixpoint contains (needle s : string) : bool :=
  String.prefix needle s ||
  match s with
  | EmptyString => false
  | String _ s' => contains needle s'
  end.

Fixpoint skip_spaces (s : string) : string :=
  match s with
  | String c s' => if is_space c then skip_spaces s' else s
  | EmptyString => s
  end.

(** The longest prefix matching [[\d.]*], and the rest. *)
Fixpoint number_token (s : string) : string * string :=
  match s with
  | String c s' =>
      if is_digit c || is_dot c
      then let '(tok, rest) := number_token s' in (String c tok, rest)
      else (EmptyString, s)
  | EmptyString => (EmptyString, s)
  end.

(** [\s*([\d.]+)\s*%] at the start of [s]: the group and what follows. *)
Definition percent_prefix (s : string) : option (string * string) :=
  let '(tok, rest) := number_token (skip_spaces s) in
  match tok with
  | EmptyString => None
  | _ =>
      match skip_spaces rest with
      | String c rest' => if is_percent c then Some (tok, rest') else None
      | EmptyString => None
      end
  end.

(** [re.match(r'^\s*([\d.]+)\s*%\s*$', text)], giving [m.group(1)]. *)
Definition match_percent (text : string) : option string :=
  match percent_prefix text with
  | Some (tok, rest) =>
      match skip_spaces rest with
      | EmptyString => Some tok
      | _ => None
      end
  | None => None
  end.

(** [re.search(r'@\s*([\d.]+)\s*%', title)], giving [m.group(1)] of the
    leftmost match. *)
Fixpoint search_at_percent (title : string) : option string :=
  match title with
  | EmptyString => None
  | String c rest =>
      if is_at c then
        match percent_prefix rest with
        | Some (tok, _) => Some tok
        | None => search_at_percent rest
        end
      else search_at_percent rest
  end.

Definition digit_value (c : ascii) : N := N.of_nat (nat_of_ascii c - 48).

(** Reads the leading decimal digits of [s] after the value [acc]. *)
Fixpoint read_digits (acc : N) (s : string) : N * string :=
  match s with
  | String c s' =>
      if is_digit c then read_digits (acc * 10 + digit_value c) s' else (acc, s)
  | EmptyString => (acc, s)
  end.

(** [float(tok)] for a token of digits and dots: ValueError unless it is
    [digits], [digits.], [.digits] or [digits.digits]. *)
Definition float_of_token (tok : string) : outcome float :=
  let '(whole, rest) := read_digits 0 tok in
  let whole_len := (String.length tok - String.length rest)%nat in
  match rest with
  | EmptyString =>
      if (whole_len =? 0)%nat then Raises else Returns (Py.float_of_ratio whole 1)
  | String c frac =>
      let '(num, rest') := read_digits whole frac in
      match rest' with
      | EmptyString =>
          if negb (is_dot c) || (whole_len + String.length frac =? 0)%nat
          then Raises
          else Returns (Py.float_of_ratio num
                          (Z.to_pos (10 ^ Z.of_nat (String.length frac))))
      | _ => Raises
      end
  end.

End Text.

(** ** The host application *)

(** Handles to host objects.  The plugin keeps a view across events, so a
    view is a reference looked up in the host each time, not a snapshot. *)
Definition window_ref := N.
Definition view_ref := N.
Definition doc_ref := N.
Definition canvas_ref := N.

Inductive widget_class : Type := QComboBox | QLineEdit | QToolButton | QLabel.

Record QWidget : Type := {
  widget_kind : widget_class;
  objectName : outcome string;
  accessibleName : outcome string;
  (** [currentText()] of a combo box, [text()] of the other classes *)
  widget_text : outcome string
}.

Record QMainWindow : Type := {
  (** [findChildren((QComboBox, QLineEdit, QToolButton, QLabel))] *)
  findChildren : outcome (list QWidget);
  (** [findChild(QStatusBar)] and, of the bar found, its [findChildren] *)
  findChild_QStatusBar : outcome (option (outcome (list QWidget)));
  windowTitle : outcome string
}.

(** What Krita answers during one handler.  The handlers run on the UI
    thread, so the answers do not change while one runs. *)
Record Host : Type := {
  (** [Krita.instance()] is not [None] *)
  instance : bool;
  activeWindow : outcome (option window_ref);
  activeDocument : outcome (option doc_ref);
  activeView : window_ref -> outcome (option view_ref);
  qwindow : window_ref -> outcome (option QMainWindow);
  document : view_ref -> outcome (option doc_ref);
  canvas : view_ref -> outcome (option canvas_ref);
  zoomLevel : canvas_ref -> outcome Py.object;
  setZoomLevel : canvas_ref -> float -> outcome unit;
  resolution : doc_ref -> outcome Py.object;
  fileName : doc_ref -> outcome string;
  (** [id(doc)] *)
  py_id : doc_ref -> N
}.

Record QPoint : Type := { x : Z; y : Z }.

Inductive MouseButton : Type := LeftButton | RightButton | MidButton.

(** The events the filter tells apart, with the accessors it calls on each. *)
Inductive QEvent : Type :=
| MouseButtonPress (button : MouseButton) (globalPos globalPosF : outcome QPoint)
| MouseMove (globalPos globalPosF : outcome QPoint)
| MouseButtonRelease (button : MouseButton)
| KeyRelease (isAutoRepeat : bool)
| OtherEvent.

(** ** The plugin object *)

Record ScrubbyZoomExtension : Type := {
  zoom_mode_active : bool;
  is_dragging : bool;
  drag_start_x : Z;
  active_view : option view_ref;
  initial_zoom_scale : float;
  last_set_zoom_scale : option float;
  document_zoom_cache : gmap string float;
  zoom_sensitivity : float;
  filter_installed : bool;
  (** depth of [QApplication]'s override-cursor stack *)
  override_cursors : nat;
  (** the [setZoomLevel] calls that returned, oldest first *)
  zoom_requests : list (canvas_ref * float)
}.

Definition REFERENCE_DPI : float := 72%float.

(** [__init__] *)
Definition __init__ : ScrubbyZoomExtension := {|
  zoom_mode_active := false;
  is_dragging := false;
  drag_start_x := 0;
  active_view := None;
  initial_zoom_scale := 1%float;
  last_set_zoom_scale := None;
  document_zoom_cache := ∅;
  zoom_sensitivity := 150%float;
  filter_installed := false;
  override_cursors := 0;
  zoom_requests := []
|}.

(** ** Utilities *)

Definition _has_active_document (h : Host) : bool :=
  try_except
    (if instance h then
       win ← activeWindow h;
       match win with
       | None => Returns false
       | Some _ =>
           win' ← activeWindow h;
           match win' with
           | None => Raises
           | Some w =>
               view ← activeView h w;
               match view with
               | None => Returns false
               | Some _ => doc ← activeDocument h; Returns (bool_decide (is_Some doc))
               end
           end
       end
     else Returns false)
    false.

Definition _get_current_view (h : Host) : option view_ref :=
  try_except
    (if instance h then
       win ← activeWindow h;
       match win with
       | Some _ =>
           win' ← activeWindow h;
           match win' with
           | None => Raises
           | Some w => activeView h w
           end
       | None => Returns None
       end
     else Returns None)
    None.

Definition _get_document_id (h : Host) : option string :=
  try_except
    (if instance h then
       doc ← activeDocument h;
       match doc with
       | None => Returns None
       | Some d =>
           fname ← fileName h d;
           match fname with
           | EmptyString => Returns (Some ("untitled_" +:+ pretty (py_id h d)))
           | _ => Returns (Some fname)
           end
       end
     else Raises)
    None.

Definition _event_global_pos (event : QEvent) : option QPoint :=
  let pos globalPos globalPosF :=
    try_except (Some <$> globalPos) (try_except (Some <$> globalPosF) None) in
  match event with
  | MouseButtonPress _ globalPos globalPosF => pos globalPos globalPosF
  | MouseMove globalPos globalPosF => pos globalPos globalPosF
  | _ => None
  end.

(** ** Zoom reading *)

Definition _doc_dpi (h : Host) (view : option view_ref) : float :=
  let in_try : option float :=
    try_except
      (doc ← match view with
             | Some v => document h v
             | None => Returns None
             end;
       match doc with
       | Some d =>
           r ← resolution h d;
           dpi ← Py.to_float r;
           Returns (if (dpi >? 0)%float then Some dpi else None)
       | None => Returns None
       end)
      None in
  match in_try with
  | Some dpi => dpi
  | None => REFERENCE_DPI
  end.

Definition _canvas_zoom_raw (h : Host) (view : option view_ref) : option float :=
  try_except
    (cv ← match view with
          | Some v => canvas h v
          | None => Returns None
          end;
     match cv with
     | Some c => z ← zoomLevel h c; Some <$> Py.to_float z
     | None => Returns None
     end)
    None.

Definition _canvas_zoom_corrected (raw_zoom dpi : float) : float :=
  try_except
    (factor ← Py.truediv dpi REFERENCE_DPI;
     if (factor <=? 0)%float then Returns raw_zoom
     else Py.truediv raw_zoom factor)
    raw_zoom.

Definition names_suggest_zoom (w : QWidget) : bool :=
  try_except
    (obj_name ← Text.lower <$> objectName w;
     acc_name ← Text.lower <$> accessibleName w;
     Returns (Text.contains "zoom" obj_name || Text.contains "zoom" acc_name))
    false.

(** The nested [read_percent_text]: a failed read or a foreign text is
    [None]; a token [float] rejects raises out of it. *)
Definition read_percent_text (w : QWidget) : outcome (option float) :=
  match widget_text w with
  | Raises => Returns None
  | Returns text =>
      match Text.match_percent text with
      | None => Returns None
      | Some tok => Some <$> Text.float_of_token tok
      end
  end.

(** The [for w in candidates] loop: the first value read, as a scale. *)
Fixpoint first_percent (candidates : list QWidget) : outcome (option float) :=
  match candidates with
  | [] => Returns None
  | w :: rest =>
      val ← read_percent_text w;
      match val with
      | Some v => Returns (Some (v / 100)%float)
      | None => first_percent rest
      end
  end.

Definition _zoom_scale_from_ui (h : Host) : option float :=
  try_except
    (win ← (if instance h then activeWindow h else Raises);
     match win with
     | None => Returns None
     | Some w =>
         qwin ← qwindow h w;
         match qwin with
         | None => Returns None
         | Some q =>
             children ← findChildren q;
             let named := filter (λ w, names_suggest_zoom w = true) children in
             candidates ←
               match named with
               | [] =>
                   status_bar ← findChild_QStatusBar q;
                   match status_bar with
                   | Some bar_children => bar_children
                   | None => Returns []
                   end
               | _ => Returns named
               end;
             found ← first_percent candidates;
             match found with
             | Some scale => Returns (Some scale)
             | None =>
                 title ← windowTitle q;
                 match Text.search_at_percent title with
                 | Some tok =>
                     v ← Text.float_of_token tok; Returns (Some (v / 100)%float)
                 | None => Returns None
                 end
             end
         end
     end)
    None.

(** [self.document_zoom_cache[doc_id]]: KeyError on a missing key. *)
Definition cache_getitem (cache : gmap string float) (key : string) : outcome float :=
  match cache !! key with
  | Some v => Returns v
  | None => Raises
  end.

(** [if doc_id]: neither [None] nor the empty string. *)
Definition truthy_id (doc_id : option string) : option string :=
  match doc_id with
  | Some EmptyString | None => None
  | Some key => Some key
  end.

(** [ui_scale is not None and ui_scale > 0] *)
Definition positive_ui (ui_scale : option float) : option float :=
  match ui_scale with
  | Some ui => if (ui >? 0)%float then Some ui else None
  | None => None
  end.

Definition _get_current_zoom_scale
    (h : Host) (self : ScrubbyZoomExtension) (view : option view_ref) : outcome float :=
  let ui_scale := _zoom_scale_from_ui h in
  match _canvas_zoom_raw h view with
  | None =>
      let doc_id := _get_document_id h in
      match truthy_id doc_id with
      | Some key =>
          if bool_decide (is_Some (document_zoom_cache self !! key))
          then cache_getitem (document_zoom_cache self) key
          else Returns (default 1%float ui_scale)
      | None => Returns (default 1%float ui_scale)
      end
  | Some raw =>
      let dpi := _doc_dpi h view in
      let corrected := _canvas_zoom_corrected raw dpi in
      match positive_ui ui_scale with
      | Some ui =>
          let dr := abs (raw - ui) in
          let dc := abs (corrected - ui) in
          Returns (if (dc <=? dr)%float then corrected else raw)
      | None =>
          if (abs (dpi - REFERENCE_DPI) >? 1e-3)%float then
            if (raw >? 10)%float && (corrected <=? 10)%float then Returns corrected
            else if (corrected <? 0.01)%float && (raw >=? 0.01)%float then Returns raw
            else Returns corrected
          else Returns raw
      end
  end.

(** ** Mode lifecycle, drag and zoom *)

Section Extension.

(** [2.0 ** y] is the platform's [pow]; Python turns an overflowing result
    into OverflowError.  The methods are stated over any such function. *)
Variable float_pow2 : float -> outcome float.

Definition activate_zoom_mode (h : Host) (self : ScrubbyZoomExtension)
    : ScrubbyZoomExtension :=
  if negb (_has_active_document h) || zoom_mode_active self then self
  else
    {| zoom_mode_active := true;
       is_dragging := false;
       drag_start_x := drag_start_x self;
       active_view := None;
       initial_zoom_scale := initial_zoom_scale self;
       last_set_zoom_scale := None;
       document_zoom_cache := document_zoom_cache self;
       zoom_sensitivity := zoom_sensitivity self;
       filter_installed := true;
       override_cursors := S (override_cursors self);
       zoom_requests := zoom_requests self |}.

Definition deactivate_zoom_mode (self : ScrubbyZoomExtension) : ScrubbyZoomExtension :=
  if negb (zoom_mode_active self) then self
  else
    {| zoom_mode_active := false;
       is_dragging := false;
       drag_start_x := drag_start_x self;
       active_view := None;
       initial_zoom_scale := initial_zoom_scale self;
       last_set_zoom_scale := last_set_zoom_scale self;
       document_zoom_cache := document_zoom_cache self;
       zoom_sensitivity := zoom_sensitivity self;
       filter_installed := filter_installed self;
       override_cursors := Nat.pred (override_cursors self);
       zoom_requests := zoom_requests self |}.

(** [self.document_zoom_cache[doc_id] = scale] under [if doc_id]. *)
Definition cache_store (h : Host) (scale : float) (cache : gmap string float)
    : gmap string float :=
  match truthy_id (_get_document_id h) with
  | Some key => <[key := scale]> cache
  | None => cache
  end.

(** A method that raises still leaves the assignments made before the
    exception, so the object comes back with the outcome. *)
Definition start_drag (h : Host) (global_pos : option QPoint)
    (self : ScrubbyZoomExtension) : outcome unit * ScrubbyZoomExtension :=
  match (if _has_active_document h then global_pos else None) with
  | None => (Returns (), deactivate_zoom_mode self)
  | Some pos =>
      let view := _get_current_view h in
      let self1 :=
        {| zoom_mode_active := zoom_mode_active self;
           is_dragging := true;
           drag_start_x := x pos;
           active_view := view;
           initial_zoom_scale := initial_zoom_scale self;
           last_set_zoom_scale := last_set_zoom_scale self;
           document_zoom_cache := document_zoom_cache self;
           zoom_sensitivity := zoom_sensitivity self;
           filter_installed := filter_installed self;
           override_cursors := override_cursors self;
           zoom_requests := zoom_requests self |} in
      match _get_current_zoom_scale h self1 view with
      | Raises => (Raises, self1)
      | Returns zoom_scale =>
          (Returns (),
           {| zoom_mode_active := zoom_mode_active self1;
              is_dragging := is_dragging self1;
              drag_start_x := drag_start_x self1;
              active_view := active_view self1;
              initial_zoom_scale := zoom_scale;
              last_set_zoom_scale := Some zoom_scale;
              document_zoom_cache :=
                cache_store h zoom_scale (document_zoom_cache self1);
              zoom_sensitivity := zoom_sensitivity self1;
              filter_installed := filter_installed self1;
              override_cursors := override_cursors self1;
              zoom_requests := zoom_requests self1 |})
      end
  end.

(** The clamp [max(0.01, min(256.0, new_scale))]. *)
Definition clamp_scale (new_scale : float) : float :=
  Py.max 0.01%float (Py.min 256%float new_scale).

(** The drag-to-zoom mapping: lines 412 to 416 of [update_zoom], as a
    function of the scale captured at the press, the sensitivity and the
    displacement [delta_x]. *)
Definition drag_to_zoom (initial_scale sensitivity : float) (delta_x : Z)
    : outcome float :=
  dx ← Py.float_of_int delta_x;
  octaves ← Py.truediv dx sensitivity;
  zoom_factor ← float_pow2 octaves;
  let new_scale := (initial_scale * zoom_factor)%float in
  Returns (clamp_scale new_scale).

Definition update_zoom (h : Host) (global_pos : option QPoint)
    (self : ScrubbyZoomExtension) : ScrubbyZoomExtension :=
  match (if is_dragging self then global_pos else None), active_view self with
  | Some pos, Some view =>
      try_except
        (cv ← canvas h view;
         match cv with
         | None => Returns self
         | Some c =>
             let delta_x := (x pos - drag_start_x self)%Z in
             new_scale ← drag_to_zoom (initial_zoom_scale self)
                                      (zoom_sensitivity self) delta_x;
             _ ← setZoomLevel h c new_scale;
             Returns
               {| zoom_mode_active := zoom_mode_active self;
                  is_dragging := is_dragging self;
                  drag_start_x := drag_start_x self;
                  active_view := active_view self;
                  initial_zoom_scale := initial_zoom_scale self;
                  last_set_zoom_scale := Some new_scale;
                  document_zoom_cache :=
                    cache_store h new_scale (document_zoom_cache self);
                  zoom_sensitivity := zoom_sensitivity self;
                  filter_installed := filter_installed self;
                  override_cursors := override_cursors self;
                  zoom_requests := zoom_requests self ++ [(c, new_scale)] |}
         end)
        self
  | _, _ => self
  end.

Definition end_drag (self : ScrubbyZoomExtension) : ScrubbyZoomExtension :=
  {| zoom_mode_active := zoom_mode_active self;
     is_dragging := false;
     drag_start_x := drag_start_x self;
     active_view := None;
     initial_zoom_scale := initial_zoom_scale self;
     last_set_zoom_scale := last_set_zoom_scale self;
     document_zoom_cache := document_zoom_cache self;
     zoom_sensitivity := zoom_sensitivity self;
     filter_installed := filter_installed self;
     override_cursors := override_cursors self;
     zoom_requests := zoom_requests self |}.

Definition is_left (b : MouseButton) : bool :=
  match b with LeftButton => true | _ => false end.

(** [ZoomEventFilter.eventFilter]: the flag is [True] when the event is
    consumed. *)
Definition eventFilter (h : Host) (event : QEvent) (self : ScrubbyZoomExtension)
    : outcome bool * ScrubbyZoomExtension :=
  if negb (zoom_mode_active self) then (Returns false, self)
  else
    match event with
    | MouseButtonPress button _ _ =>
        if is_left button then
          let '(o, self') := start_drag h (_event_global_pos event) self in
          (_ ← o; Returns true, self')
        else (Returns false, self)
    | MouseMove _ _ =>
        if is_dragging self
        then (Returns true, update_zoom h (_event_global_pos event) self)
        else (Returns false, self)
    | MouseButtonRelease button =>
        if is_left button && is_dragging self
        then (Returns true, end_drag self)
        else (Returns false, self)
    | KeyRelease isAutoRepeat =>
        if negb isAutoRepeat
        then (Returns false, deactivate_zoom_mode self)
        else (Returns false, self)
    | OtherEvent => (Returns false, self)
    end.

(** The filter's answers to a run of events, and the object after them. *)
Fixpoint deliver_all (events : list (Host * QEvent)) (self : ScrubbyZoomExtension)
    : list (outcome bool) * ScrubbyZoomExtension :=
  match events with
  | [] => ([], self)
  | (h, event) :: rest =>
      let '(o, self') := eventFilter h event self in
      let '(os, self'') := deliver_all rest self' in
      (o :: os, self'')
  end.

(** The objects the plugin can be in: [__init__], then any run of action
    triggers, filtered events and the drag operations.  [start_drag] has
    one call site, in the filter behind the [zoom_mode_active] test. *)
Inductive reachable : ScrubbyZoomExtension -> Prop :=
| reach_init : reachable __init__
| reach_activate h self :
    reachable self -> reachable (activate_zoom_mode h self)
| reach_deactivate self :
    reachable self -> reachable (deactivate_zoom_mode self)
| reach_event h event self :
    reachable self -> reachable (eventFilter h event self).2
| reach_start_drag h pos self :
    reachable self -> zoom_mode_active self = true ->
    reachable (start_drag h pos self).2
| reach_update_zoom h pos self :
    reachable self -> reachable (update_zoom h pos self)
| reach_end_drag self :
    reachable self -> reachable (end_drag self).

End Extension.

(** ** A reference [pow] and sample hosts *)

Module Libm.

(** The integer nearest to a finite [y]. *)
Definition nearest_int (y : float) : Z :=
  match Prim2SF y with
  | S754_finite s m e =>
      Z.shiftr (Z.shiftl (if s then Zneg m else Zpos m) (e + 1) + 1) 1
  | _ => 0
  end.

(** [1 + t/k * (1 + t/(k+1) * ...)], [n] terms of the series of [exp t]. *)
Fixpoint exp_series (n : nat) (k t : float) : float :=
  match n with
  | O => 1%float
  | S n' => (1 + t / k * exp_series n' (k + 1) t)%float
  end.

Definition ln2 : float := 0.6931471805599453%float.

(** A reference [2.0 ** y] to run the model with: exact at whole octaves,
    the series between them, OverflowError past the largest float and a
    silent zero below the smallest, as Python reports them. *)
Definition pow2 (y : float) : outcome float :=
  if is_nan y then Returns nan
  else if (y =? infinity)%float then Returns infinity
  else if (y =? neg_infinity)%float then Returns 0%float
  else if (y >=? 1024)%float then Raises
  else if (y <? -1080)%float then Returns 0%float
  else
    let k := nearest_int y in
    fk ← Py.float_of_int k;
    let r := Z.ldexp (exp_series 20 1%float ((y - fk) * ln2)%float) k in
    if is_infinity r then Raises else Returns r.

End Libm.

Module Sample.

Definition label (name text : string) : QWidget :=
  {| widget_kind := QLabel;
     objectName := Returns name;
     accessibleName := Returns EmptyString;
     widget_text := Returns text |}.

(** One window showing one document: the canvas reports [zoom], the
    document [dpi], the window holds [controls] and is titled [title]. *)
Definition krita (zoom dpi : Py.object) (controls : list QWidget)
    (title file : string) : Host :=
  {| instance := true;
     activeWindow := Returns (Some 1%N);
     activeDocument := Returns (Some 1%N);
     activeView := λ _, Returns (Some 1%N);
     qwindow := λ _, Returns (Some
       {| findChildren := Returns controls;
          findChild_QStatusBar := Returns None;
          windowTitle := Returns title |});
     document := λ _, Returns (Some 1%N);
     canvas := λ _, Returns (Some 1%N);
     zoomLevel := λ _, Returns zoom;
     setZoomLevel := λ _ _, Returns ();
     resolution := λ _, Returns dpi;
     fileName := λ _, Returns file;
     py_id := λ _, 140234%N |}.

(** A host with no window and no document. *)
Definition empty : Host :=
  {| instance := true;
     activeWindow := Returns None;
     activeDocument := Returns None;
     activeView := λ _, Raises;
     qwindow := λ _, Raises;
     document := λ _, Raises;
     canvas := λ _, Raises;
     zoomLevel := λ _, Raises;
     setZoomLevel := λ _ _, Raises;
     resolution := λ _, Raises;
     fileName := λ _, Raises;
     py_id := λ _, 0%N |}.

(** The sample window, with a canvas that has gone away. *)
Definition no_canvas (controls : list QWidget) (title file : string) : Host :=
  {| instance := true;
     activeWindow := Returns (Some 1%N);
     activeDocument := Returns (Some 1%N);
     activeView := λ _, Returns (Some 1%N);
     qwindow := λ _, Returns (Some
       {| findChildren := Returns controls;
          findChild_QStatusBar := Returns None;
          windowTitle := Returns title |});
     document := λ _, Returns (Some 1%N);
     canvas := λ _, Raises;
     zoomLevel := λ _, Raises;
     setZoomLevel := λ _ _, Raises;
     resolution := λ _, Returns (Py.Int 72);
     fileName := λ _, Returns file;
     py_id := λ _, 140234%N |}.

Definition press (px : Z) : QEvent :=
  MouseButtonPress LeftButton (Returns {| x := px; y := 0 |}) Raises.

Definition move (px : Z) : QEvent :=
  MouseMove (Returns {| x := px; y := 0 |}) Raises.

(** The plugin after the action was triggered on [h]. *)
Definition armed (h : Host) : ScrubbyZoomExtension :=
  activate_zoom_mode h __init__.

(** The plugin in the middle of a drag begun at [px] on [h]. *)
Definition dragging (h : Host) (px : Z) : ScrubbyZoomExtension :=
  (eventFilter Libm.pow2 h (press px) (armed h)).2.

End Sample.

(** ** Cursor loading *)

Module Cursor.

(** [int(f)]: truncation toward zero; ValueError on a NaN, OverflowError on
    an infinity. *)
Definition int_of_float (f : float) : outcome Z :=
  match Prim2SF f with
  | S754_zero _ => Returns 0%Z
  | S754_finite s m e =>
      let magnitude :=
        if (0 <=? e)%Z then (Zpos m * 2 ^ e)%Z else (Zpos m / 2 ^ (- e))%Z in
      Returns (if s then - magnitude else magnitude)%Z
  | S754_infinity _ | S754_nan => Raises
  end.

(** The screen and the Icons directory as the plugin finds them. *)
Record Desktop : Type := {
  (** [QApplication.primaryScreen()], and [devicePixelRatio()] of the
      screen found *)
  primaryScreen : outcome (option (outcome float));
  (** [os.path.exists] of a file of the Icons directory *)
  exists_ : string → bool;
  (** [QPixmap(path).isNull()] *)
  isNull : string → bool
}.

(** [QCursor(pixmap, hotspot, hotspot)] of the pixmap of a file with its
    device pixel ratio set, or [QCursor(Qt.SizeHorCursor)]. *)
Inductive QCursor : Type :=
| Pixmap (path : string) (devicePixelRatio : float) (hotX hotY : Z)
| SizeHorCursor.

Definition available_sizes : list Z := [24; 32; 48; 64; 96]%Z.

(** [f"zoomin{size}.png"], in the Icons directory. *)
Definition icon_file (size : Z) : string := "zoomin" +:+ pretty size +:+ ".png".

(** The [try] block that reads the device pixel ratio. *)
Definition device_pixel_ratio (d : Desktop) : float :=
  try_except
    (screen ← primaryScreen d;
     match screen with
     | Some ratio => ratio
     | None => Returns 1%float
     end)
    1%float.

(** The first loop: the first size that reaches the target, else
    [best_size] as it was. *)
Fixpoint first_at_least (target : Z) (sizes : list Z) (best_size : Z) : Z :=
  match sizes with
  | [] => best_size
  | size :: rest =>
      if (size >=? target)%Z then size else first_at_least target rest best_size
  end.

(** The second loop: the first size whose file exists. *)
Fixpoint first_existing (d : Desktop) (sizes : list Z) : option Z :=
  match sizes with
  | [] => None
  | size :: rest =>
      if exists_ d (icon_file size) then Some size else first_existing d rest
  end.

Definition _get_cursor_icon_path (d : Desktop) : outcome (string * Z * float) :=
  let dpr := device_pixel_ratio d in
  target_physical_size ← int_of_float (24 * dpr);
  let best_size :=
    first_at_least target_physical_size available_sizes
      (List.last available_sizes 0%Z) in
  let cursor_path := icon_file best_size in
  if negb (exists_ d cursor_path) then
    match first_existing d available_sizes with
    | Some size => Returns (icon_file size, size, dpr)
    | None => Returns (cursor_path, best_size, dpr)
    end
  else Returns (cursor_path, best_size, dpr).

(** The cursor [_load_cursor] leaves in [self.zoom_cursor]. *)
Definition _load_cursor (d : Desktop) : QCursor :=
  let in_try : option QCursor :=
    try_except
      ('(cursor_path, icon_size, dpr) ← _get_cursor_icon_path d;
       if exists_ d cursor_path then
         if negb (isNull d cursor_path) then
           size ← Py.float_of_int icon_size;
           quotient ← Py.truediv size (4 * dpr);
           hotspot ← int_of_float quotient;
           Returns (Some (Pixmap cursor_path dpr hotspot hotspot))
         else Returns None
       else Returns None)
      None in
  default SizeHorCursor in_try.

(** A desktop with a screen of the given ratio and the icon files of the
    given sizes, all of them good images. *)
Definition desk (ratio : float) (sizes : list Z) : Desktop :=
  {| primaryScreen := Returns (Some (Returns ratio));
     exists_ := λ path, bool_decide (Exists (λ size, path = icon_file size) sizes);
     isNull := λ _, false |}.

End Cursor.

(** More sample hosts and widgets. *)
Module Scene.

(** The sample window showing an unsaved document with the given object
    id. *)
Definition untitled (object_id : N) : Host :=
  {| instance := true;
     activeWindow := Returns (Some 1%N);
     activeDocument := Returns (Some 1%N);
     activeView := λ _, Returns (Some 1%N);
     qwindow := λ _, Returns None;
     document := λ _, Returns (Some 1%N);
     canvas := λ _, Returns (Some 1%N);
     zoomLevel := λ _, Returns (Py.Float 1);
     setZoomLevel := λ _ _, Returns ();
     resolution := λ _, Returns (Py.Int 72);
     fileName := λ _, Returns EmptyString;
     py_id := λ _, object_id |}.

(** A widget whose accessible name cannot be read. *)
Definition nameless (name text : string) : QWidget :=
  {| widget_kind := QLabel;
     objectName := Returns name;
     accessibleName := Raises;
     widget_text := Returns text |}.

End Scene.

(** ** Calls from outside the filter *)

Section FreeCalls.

Variable float_pow2 : float -> outcome float.


End FreeCalls.

(** ** Vocabulary of the properties *)

(** The clamp interval, 1% to 25600%. *)
Definition in_range (scale : float) : bool :=
  (0.01 <=? scale)%float && (scale <=? 256)%float.

(** The Idle state of the input state machine. *)
Definition idle (self : ScrubbyZoomExtension) : Prop :=
  zoom_mode_active self = false ∧ is_dragging self = false ∧ active_view self = None.



(** The cache entry of the current document, if it has one. *)
Definition cached_scale (h : Host) (self : ScrubbyZoomExtension) : option float :=
  key ← _get_document_id h; document_zoom_cache self !! key.

(** What the methods keep of the Qt side: one override cursor while the mode
    is on and none while it is off, and the filter installed once the mode
    has been on. *)
Definition tidy (self : ScrubbyZoomExtension) : Prop :=
  override_cursors self = (if zoom_mode_active self then 1 else 0) ∧
  (zoom_mode_active self = true → filter_installed self = true).

(** Every character of [s] satisfies [p]. *)
Fixpoint all_chars (p : ascii → bool) (s : string) : bool :=
  match s with
  | EmptyString => true
  | String c s' => p c && all_chars p s'
  end.

(** The first character of [s], if it has one, satisfies [p]. *)
Definition starts_with (p : ascii → bool) (s : string) : bool :=
  match s with
  | EmptyString => false
  | String c _ => p c
  end.

(** The characters of ASCII. *)
Definition is_ascii (c : ascii) : bool := (nat_of_ascii c <? 128)%nat.

(** The text of a widget, when it can be read, is ASCII. *)
Definition ascii_text (w : QWidget) : bool :=
  match widget_text w with
  | Returns text => all_chars is_ascii text
  | Raises => true
  end.

(** The characters of [[\d.]]. *)
Definition token_char (c : ascii) : bool := Text.is_digit c || Text.is_dot c.

Module FloatOrder.

(** Position of a float on the extended real line: its class, then for a
    finite one the exponent and the mantissa, mirrored below zero.  NaN has
    none. *)
Definition rank (s : spec_float) : option (Z * Z * Z) :=
  match s with
  | S754_nan => None
  | S754_infinity true => Some (-2, 0, 0)%Z
  | S754_finite true m e => Some (-1, - e, Zneg m)%Z
  | S754_zero _ => Some (0, 0, 0)%Z
  | S754_finite false m e => Some (1, e, Zpos m)%Z
  | S754_infinity false => Some (2, 0, 0)%Z
  end.

Definition lex_lt (a b : Z * Z * Z) : bool :=
  let '(a1, a2, a3) := a in
  let '(b1, b2, b3) := b in
  ((a1 <? b1) || (a1 =? b1) && ((a2 <? b2) || (a2 =? b2) && (a3 <? b3)))%Z.

Definition lex_eq (a b : Z * Z * Z) : bool :=
  let '(a1, a2, a3) := a in
  let '(b1, b2, b3) := b in
  ((a1 =? b1) && (a2 =? b2) && (a3 =? b3))%Z.

Definition on_ranks (f : Z * Z * Z -> Z * Z * Z -> bool) (x y : float) : bool :=
  match rank (Prim2SF x), rank (Prim2SF y) with
  | Some a, Some b => f a b
  | _, _ => false
  end.

Lemma SFcompare_rank s t :
  SFcompare s t =
  match rank s, rank t with
  | Some a, Some b =>
      Some (if lex_lt a b then Lt else if lex_eq a b then Eq else Gt)
  | _, _ => None
  end.
Proof.
  destruct s as [[]|[]| |[] m1 e1], t as [[]|[]| |[] m2 e2]; try reflexivity;
    cbn [SFcompare rank lex_lt lex_eq];
    rewrite Pos.compare_cont_spec; cbn [Pos.switch_Eq];
    destruct (Z.compare_spec e1 e2), (Pos.compare_spec m1 m2);
    cbn [CompOpp]; f_equal;
    repeat match goal with
      | |- context [if ?b then _ else _] => destruct b eqn:?
      end;
    try reflexivity; lia.
Qed.

Lemma ltb_rank x y : (x <? y)%float = on_ranks lex_lt x y.
Proof.
  rewrite FloatAxioms.ltb_spec. unfold SFltb, on_ranks. rewrite SFcompare_rank.
  destruct (rank (Prim2SF x)) as [a|], (rank (Prim2SF y)) as [b|]; try reflexivity.
  destruct (lex_lt a b); [reflexivity|]. destruct (lex_eq a b); reflexivity.
Qed.

Lemma leb_rank x y :
  (x <=? y)%float = on_ranks (λ a b, lex_lt a b || lex_eq a b) x y.
Proof.
  rewrite FloatAxioms.leb_spec. unfold SFleb, on_ranks. rewrite SFcompare_rank.
  destruct (rank (Prim2SF x)) as [a|], (rank (Prim2SF y)) as [b|]; try reflexivity.
  destruct (lex_lt a b); [reflexivity|]. destruct (lex_eq a b); reflexivity.
Qed.

Lemma eqb_rank x y : (x =? y)%float = on_ranks lex_eq x y.
Proof.
  rewrite FloatAxioms.eqb_spec. unfold SFeqb, on_ranks. rewrite SFcompare_rank.
  destruct (rank (Prim2SF x)) as [[[a1 a2] a3]|],
           (rank (Prim2SF y)) as [[[b1 b2] b3]|]; try reflexivity.
  destruct (lex_lt _ _) eqn:L, (lex_eq _ _) eqn:E; try reflexivity.
  cbn in L, E. lia.
Qed.

(** Evaluates the rank of each float literal in sight. *)
Ltac literal_ranks :=
  repeat match goal with
    | |- context [rank (Prim2SF ?v)] =>
        tryif is_var v then fail else
          let c := eval vm_compute in (rank (Prim2SF v)) in
          change (rank (Prim2SF v)) with c in *
    | H : context [rank (Prim2SF ?v)] |- _ =>
        tryif is_var v then fail else
          let c := eval vm_compute in (rank (Prim2SF v)) in
          change (rank (Prim2SF v)) with c in *
    end.

(** Turns the float comparisons in sight into integer arithmetic on the
    ranks of the floats compared, and lets [lia] finish. *)
Ltac by_ranks :=
  intros;
  rewrite ?ltb_rank, ?leb_rank, ?eqb_rank in *; unfold on_ranks in *;
  literal_ranks;
  repeat match goal with
    | H : context [rank (Prim2SF ?v)] |- _ =>
        destruct (rank (Prim2SF v)) as [[[? ?] ?]|]
    | |- context [rank (Prim2SF ?v)] =>
        destruct (rank (Prim2SF v)) as [[[? ?] ?]|]
    end;
  cbn [lex_lt lex_eq] in *; try discriminate; try reflexivity; try lia.

Lemma ltb_leb x y : (x <? y)%float = true → (x <=? y)%float = true.
Proof. by_ranks. Qed.

Lemma ltb_asym x y : (x <? y)%float = true → (y <=? x)%float = false.
Proof. by_ranks. Qed.

Lemma eqb_leb x y : (x =? y)%float = true → (x <=? y)%float = true.
Proof. by_ranks. Qed.

Lemma leb_refl_of_leb x y : (x <=? y)%float = true → (x <=? x)%float = true.
Proof. by_ranks. Qed.

(** A positive finite float is determined by its rank. *)
Lemma rank_positive_finite x e m :
  rank (Prim2SF x) = Some (1, e, Zpos m)%Z → Prim2SF x = S754_finite false m e.
Proof.
  destruct (Prim2SF x) as [[]|[]| |[] m' e']; cbn [rank]; congruence.
Qed.

(** Between a literal and itself there is only the literal. *)
Lemma leb_antisym_256 x :
  (x <=? 256)%float = true → (x <? 256)%float = false → x = 256%float.
Proof.
  intros Hle Hlt. apply Prim2SF_inj.
  rewrite ltb_rank in Hlt. rewrite leb_rank in Hle. unfold on_ranks in *.
  literal_ranks.
  destruct (rank (Prim2SF x)) as [[[c e] m]|] eqn:R; [|discriminate].
  cbn [lex_lt lex_eq] in *.
  assert (c = 1 ∧ e = -44 ∧ m = 4503599627370496)%Z as (-> & -> & ->) by lia.
  exact (rank_positive_finite _ _ _ R).
Qed.

Lemma leb_antisym_001 x :
  (0.01 <=? x)%float = true → (0.01 <? x)%float = false → x = 0.01%float.
Proof.
  intros Hle Hlt. apply Prim2SF_inj.
  rewrite ltb_rank in Hlt. rewrite leb_rank in Hle. unfold on_ranks in *.
  literal_ranks.
  destruct (rank (Prim2SF x)) as [[[c e] m]|] eqn:R; [|discriminate].
  cbn [lex_lt lex_eq] in *.
  assert (c = 1 ∧ e = -59 ∧ m = 5764607523034235)%Z as (-> & -> & ->) by lia.
  exact (rank_positive_finite _ _ _ R).
Qed.

(** Multiplying the mantissa by [2^52] and rounding at an exponent 52
    lower gives the float back. *)
Lemma round_undoes_shift s m e :
  bounded prec emax m e = true →
  binary_round_aux prec emax s (Zpos (m * 4503599627370496)) (e + -52) loc_Exact
  = S754_finite s m e.
Proof.
  unfold bounded, canonical_mantissa. intros Hb.
  apply andb_prop in Hb as [Hc He]. apply Z.eqb_eq in Hc.
  rewrite Pos.mul_comm. cbv [Pos.mul].
  unfold binary_round_aux, shr_fexp.
  cbn [Zdigits2 digits2_pos shr_record_of_loc].
  rewrite !Pos2Z.inj_succ.
  match goal with
  | |- context [fexp prec emax ?a] =>
      replace a with (Z.pos (digits2_pos m) + e)%Z by lia
  end.
  rewrite Hc. replace (e - (e + -52))%Z with 52%Z by lia.
  cbn [shr SpecFloat.iter_pos shr_1 orb shr_m loc_of_shr_record round_nearest_even].
  replace (e + -52 + 52)%Z with e by lia.
  cbn [Zdigits2]. rewrite Hc, Z.sub_diag.
  cbn [shr shr_record_of_loc shr_m].
  rewrite He. reflexivity.
Qed.

(** [x * 1.0] is [x], bit for bit. *)
Lemma mul_one_r x : (x * 1)%float = x.
Proof.
  apply Prim2SF_inj. rewrite mul_spec.
  change (Prim2SF 1) with (S754_finite false 4503599627370496 (-52)).
  pose proof (Prim2SF_valid x) as Hv.
  destruct (Prim2SF x) as [[]|[]| |s m e]; try reflexivity.
  unfold SF64mul, SFmul.
  rewrite round_undoes_shift by exact Hv.
  destruct s; reflexivity.
Qed.

End FloatOrder.

(** ** The host utilities *)


Lemma document_id_nonempty h key :
  _get_document_id h = Some key → key ≠ EmptyString.
Proof.
  unfold _get_document_id.
  destruct (instance h); [|discriminate].
  destruct (activeDocument h) as [[d|]|]; cbn; try discriminate.
  destruct (fileName h d) as [[|c f]|]; cbn; intros [= <-]; discriminate.
Qed.

Lemma truthy_document_id h : truthy_id (_get_document_id h) = _get_document_id h.
Proof.
  destruct (_get_document_id h) as [[|c key]|] eqn:E; try reflexivity.
  now apply document_id_nonempty in E.
Qed.

(** ** The session invariant *)

Section Session.

Variable float_pow2 : float → outcome float.












End Session.

(** ** The zoom estimator *)

Lemma doc_dpi_positive h view : (_doc_dpi h view >? 0)%float = true.
Proof.
  unfold _doc_dpi.
  destruct (match view with Some v => document h v | None => Returns None end)
    as [[d|]|]; cbn; try reflexivity.
  destruct (resolution h d) as [r|]; cbn; try reflexivity.
  destruct (Py.to_float r) as [dpi|]; cbn; try reflexivity.
  destruct (dpi >? 0)%float eqn:E; [exact E | reflexivity].
Qed.

(** The correction, without its exception path: the guard keeps the only
    divisor that could raise away from the division. *)
Lemma corrected_guarded raw dpi :
  _canvas_zoom_corrected raw dpi =
  if (dpi / REFERENCE_DPI <=? 0)%float then raw
  else (raw / (dpi / REFERENCE_DPI))%float.
Proof.
  unfold _canvas_zoom_corrected, Py.truediv, REFERENCE_DPI.
  change (72 =? 0)%float with false. cbn.
  destruct (dpi / 72 <=? 0)%float eqn:G; [reflexivity|].
  destruct (dpi / 72 =? 0)%float eqn:Z; [|reflexivity].
  apply FloatOrder.eqb_leb in Z. congruence.
Qed.

(** The estimate when the raw getter answers and the UI does not. *)
Lemma estimate_without_ui h self view raw :
  _canvas_zoom_raw h view = Some raw →
  positive_ui (_zoom_scale_from_ui h) = None →
  let dpi := _doc_dpi h view in
  let corrected := _canvas_zoom_corrected raw dpi in
  _get_current_zoom_scale h self view =
  Returns
    (if (abs (dpi - REFERENCE_DPI) >? 1e-3)%float then
       if (raw >? 10)%float && (corrected <=? 10)%float then corrected
       else if (corrected <? 0.01)%float && (raw >=? 0.01)%float then raw
       else corrected
     else raw).
Proof.
  intros Hraw Hui. unfold _get_current_zoom_scale. rewrite Hraw, Hui. cbn zeta.
  repeat match goal with |- context [if ?b then _ else _] => destruct b end;
    reflexivity.
Qed.

(** The estimate when both the raw getter and the UI answer. *)
Lemma estimate_with_ui h self view raw ui :
  _canvas_zoom_raw h view = Some raw →
  positive_ui (_zoom_scale_from_ui h) = Some ui →
  let corrected := _canvas_zoom_corrected raw (_doc_dpi h view) in
  _get_current_zoom_scale h self view =
  Returns (if (abs (corrected - ui) <=? abs (raw - ui))%float then corrected else raw).
Proof.
  intros Hraw Hui. unfold _get_current_zoom_scale. rewrite Hraw, Hui. reflexivity.
Qed.

(** The estimate when the raw getter does not answer. *)
Lemma estimate_without_raw h self view :
  _canvas_zoom_raw h view = None →
  _get_current_zoom_scale h self view =
  Returns
    match cached_scale h self with
    | Some cached => cached
    | None => default 1%float (_zoom_scale_from_ui h)
    end.
Proof.
  intros Hraw. unfold _get_current_zoom_scale, cached_scale. rewrite Hraw.
  rewrite truthy_document_id.
  destruct (_get_document_id h) as [key|]; cbn; [|reflexivity].
  unfold cache_getitem.
  destruct (document_zoom_cache self !! key) as [cached|] eqn:E.
  - rewrite bool_decide_eq_true_2 by eauto. reflexivity.
  - rewrite bool_decide_eq_false_2 by (intros [? ?]; discriminate). reflexivity.
Qed.

(** C1 (amended): with no UI value, a raw value and a DPI more than epsilon
    away from 72, the estimator keeps raw exactly when corrected < 0.01 and
    0.01 <= raw <= 10; in every other such case, raw > 10 with
    corrected <= 10 included, it returns corrected, which is
    raw / (dpi / 72) wherever that factor is positive. *)
Theorem no_ui_prefers_corrected h self view raw :
  _zoom_scale_from_ui h = None →
  _canvas_zoom_raw h view = Some raw →
  (abs (_doc_dpi h view - REFERENCE_DPI) >? 1e-3)%float = true →
  let dpi := _doc_dpi h view in
  let corrected := _canvas_zoom_corrected raw dpi in
  corrected = (if (dpi / REFERENCE_DPI <=? 0)%float then raw
               else raw / (dpi / REFERENCE_DPI))%float ∧
  _get_current_zoom_scale h self view =
  Returns
    (if (corrected <? 0.01)%float && (raw >=? 0.01)%float && (raw <=? 10)%float
     then raw else corrected).
Proof.
  intros Hui Hraw Hdpi dpi corrected. subst dpi.
  split; [apply corrected_guarded|].
  rewrite (estimate_without_ui h self view raw Hraw) by (now rewrite Hui).
  cbn zeta. rewrite Hdpi. fold corrected.
  destruct (raw >? 10)%float eqn:A, (corrected <=? 10)%float eqn:B,
    (corrected <? 0.01)%float eqn:C, (raw >=? 0.01)%float eqn:D,
    (raw <=? 10)%float eqn:E; cbn; try reflexivity; exfalso;
    clear - A B C D E; revert A B C D E; generalize corrected; intros c;
    FloatOrder.by_ranks.
Qed.

Lemma no_ui_prefers_corrected_witness :
  let h := Sample.krita (Py.Float 4.1667) (Py.Int 300) [] "a.kra" "/a.kra" in
  _get_current_zoom_scale h __init__ (Some 1%N) =
  Returns (_canvas_zoom_corrected 4.1667 300).
Proof.
  intros h.
  exact (proj2 (no_ui_prefers_corrected h __init__ (Some 1%N) 4.1667%float
                  eq_refl eq_refl eq_refl)).
Defined.

(** At raw = 20 and 300 DPI the corrected value is 4.8: the stated rule keeps
    raw, the estimator returns corrected.  At raw = 11 and 144000 DPI the
    corrected value is 0.0055: the second stated rule keeps raw, the
    estimator returns corrected again. *)
Lemma keeping_raw_above_ten_fails :
  let h := Sample.krita (Py.Float 20) (Py.Int 300) [] "a.kra" "/a.kra" in
  let h' := Sample.krita (Py.Float 11) (Py.Int 144000) [] "a.kra" "/a.kra" in
  let view := Some 1%N in
  (_zoom_scale_from_ui h = None ∧
   _canvas_zoom_raw h view = Some 20%float ∧
   (abs (_doc_dpi h view - REFERENCE_DPI) >? 1e-3)%float = true ∧
   (20 >? 10)%float = true ∧
   (_canvas_zoom_corrected 20 (_doc_dpi h view) <=? 10)%float = true ∧
   ∃ scale, _get_current_zoom_scale h __init__ view = Returns scale ∧
            (scale =? 20)%float = false ∧
            scale = _canvas_zoom_corrected 20 (_doc_dpi h view)) ∧
  (_zoom_scale_from_ui h' = None ∧
   _canvas_zoom_raw h' view = Some 11%float ∧
   (abs (_doc_dpi h' view - REFERENCE_DPI) >? 1e-3)%float = true ∧
   (_canvas_zoom_corrected 11 (_doc_dpi h' view) <? 0.01)%float = true ∧
   (11 >=? 0.01)%float = true ∧
   ∃ scale, _get_current_zoom_scale h' __init__ view = Returns scale ∧
            (scale =? 11)%float = false ∧
            scale = _canvas_zoom_corrected 11 (_doc_dpi h' view)).
Proof.
  vm_compute. repeat split; eexists; repeat split.
Qed.

(** C2 (amended): for every combination of inputs the estimator returns a
    value and does not raise; the value is strictly positive whenever the
    candidates it chooses among are, namely the cache entry of the current
    document, the UI value, the raw value and its corrected value. *)
Theorem estimator_never_raises h self view :
  ∃ scale,
    _get_current_zoom_scale h self view = Returns scale ∧
    ((∀ cached, cached_scale h self = Some cached → (cached >? 0)%float = true) →
     (∀ ui, _zoom_scale_from_ui h = Some ui → (ui >? 0)%float = true) →
     (∀ raw, _canvas_zoom_raw h view = Some raw →
        (raw >? 0)%float = true ∧
        (_canvas_zoom_corrected raw (_doc_dpi h view) >? 0)%float = true) →
     (scale >? 0)%float = true).
Proof.
  destruct (_canvas_zoom_raw h view) as [raw|] eqn:Hraw.
  - destruct (positive_ui (_zoom_scale_from_ui h)) as [ui|] eqn:Hui.
    + rewrite (estimate_with_ui h self view raw ui Hraw Hui).
      eexists; split; [reflexivity|]. intros _ _ Hpos.
      destruct (Hpos raw eq_refl). now destruct (_ <=? _)%float.
    + rewrite (estimate_without_ui h self view raw Hraw Hui).
      eexists; split; [reflexivity|]. intros _ _ Hpos.
      destruct (Hpos raw eq_refl).
      repeat match goal with |- context [if ?b then _ else _] => destruct b end;
        assumption.
  - rewrite (estimate_without_raw h self view Hraw).
    eexists; split; [reflexivity|]. intros Hcache Hui _.
    destruct (cached_scale h self) as [cached|]; [now apply Hcache|].
    destruct (_zoom_scale_from_ui h) as [ui|]; [now apply Hui | reflexivity].
Qed.

Lemma estimator_never_raises_witness :
  let h := Sample.krita (Py.Float 4.1667) (Py.Int 300)
             [Sample.label "zoomLabel" "100%"] "a.kra" "/a.kra" in
  ∃ scale, _get_current_zoom_scale h __init__ (Some 1%N) = Returns scale ∧
           (scale >? 0)%float = true.
Proof.
  intros h.
  destruct (estimator_never_raises h __init__ (Some 1%N)) as (scale & E & P).
  exists scale. split; [exact E|]. apply P.
  - intros cached. vm_compute. discriminate.
  - intros ui. vm_compute. intros [= <-]. reflexivity.
  - intros raw. vm_compute. intros [= <-]. split; reflexivity.
Defined.

(** With the raw getter answering zero at 72 DPI the estimator returns zero;
    with the getter answering -2 at 300 DPI it returns the corrected value,
    which is negative. *)
Lemma estimator_returns_zero :
  let h := Sample.krita (Py.Float 0) (Py.Int 72) [] "a.kra" "/a.kra" in
  let h' := Sample.krita (Py.Float (-2)) (Py.Int 300) [] "a.kra" "/a.kra" in
  (∃ scale, _get_current_zoom_scale h __init__ (Some 1%N) = Returns scale ∧
            (scale <=? 0)%float = true) ∧
  (∃ scale, _get_current_zoom_scale h' __init__ (Some 1%N) = Returns scale ∧
            (scale <? 0)%float = true).
Proof.
  vm_compute. split; eexists; split; reflexivity.
Qed.

(** C5: with a strictly positive UI value and a raw value, the estimator
    returns whichever of raw and corrected is closer to the UI value in
    absolute distance, and corrected when the distances are equal. *)
Theorem ui_picks_the_closer h self view raw ui :
  _canvas_zoom_raw h view = Some raw →
  _zoom_scale_from_ui h = Some ui →
  (ui >? 0)%float = true →
  let corrected := _canvas_zoom_corrected raw (_doc_dpi h view) in
  let dr := abs (raw - ui) in
  let dc := abs (corrected - ui) in
  ((dc <? dr)%float = true →
   _get_current_zoom_scale h self view = Returns corrected) ∧
  ((dr <? dc)%float = true →
   _get_current_zoom_scale h self view = Returns raw) ∧
  ((dc =? dr)%float = true →
   _get_current_zoom_scale h self view = Returns corrected).
Proof.
  intros Hraw Hui Hpos corrected dr dc.
  assert (positive_ui (_zoom_scale_from_ui h) = Some ui) as Hui'
    by (rewrite Hui; cbn; now rewrite Hpos).
  rewrite (estimate_with_ui h self view raw ui Hraw Hui').
  fold corrected dr dc. repeat split; intros H.
  - now rewrite (FloatOrder.ltb_leb _ _ H).
  - now rewrite (FloatOrder.ltb_asym _ _ H).
  - now rewrite (FloatOrder.eqb_leb _ _ H).
Qed.

Lemma ui_picks_the_closer_witness :
  let h := Sample.krita (Py.Float 2.7792) (Py.Int 300)
             [Sample.label "zoomLabel" "66.7%"] "a.kra" "/a.kra" in
  _get_current_zoom_scale h __init__ (Some 1%N) =
  Returns (_canvas_zoom_corrected 2.7792 300).
Proof.
  intros h.
  refine (proj1 (ui_picks_the_closer h __init__ (Some 1%N) 2.7792%float
                   0.667%float eq_refl _ eq_refl) eq_refl).
  vm_compute. reflexivity.
Defined.

(** C7: when the raw getter is unavailable the estimator returns the cache
    entry of the current document if there is one, otherwise the UI value if
    there is one, otherwise exactly 1.0. *)
Theorem raw_unavailable_priority h self view :
  _canvas_zoom_raw h view = None →
  (∀ cached, cached_scale h self = Some cached →
     _get_current_zoom_scale h self view = Returns cached) ∧
  (cached_scale h self = None →
   ∀ ui, _zoom_scale_from_ui h = Some ui →
     _get_current_zoom_scale h self view = Returns ui) ∧
  (cached_scale h self = None → _zoom_scale_from_ui h = None →
   _get_current_zoom_scale h self view = Returns 1%float).
Proof.
  intros Hraw. rewrite (estimate_without_raw h self view Hraw).
  repeat split.
  - intros cached ->. reflexivity.
  - intros -> ui ->. reflexivity.
  - intros -> ->. reflexivity.
Qed.

(** C10: a DPI that is unavailable, not numeric or not strictly positive is
    replaced by the reference DPI 72, so the DPI used is always strictly
    positive; and the correction divides only by a factor that is neither
    zero nor negative, returning raw unchanged when dpi / 72 <= 0. *)
Theorem dpi_fallback_and_guarded_division :
  (∀ h, _doc_dpi h None = REFERENCE_DPI) ∧
  (∀ h v, document h v = Raises ∨ document h v = Returns None →
     _doc_dpi h (Some v) = REFERENCE_DPI) ∧
  (∀ h v d, document h v = Returns (Some d) →
     (resolution h d ≫= Py.to_float) = Raises →
     _doc_dpi h (Some v) = REFERENCE_DPI) ∧
  (∀ h v d dpi, document h v = Returns (Some d) →
     (resolution h d ≫= Py.to_float) = Returns dpi →
     (dpi >? 0)%float = false →
     _doc_dpi h (Some v) = REFERENCE_DPI) ∧
  (∀ h view, (_doc_dpi h view >? 0)%float = true) ∧
  (∀ raw dpi, (dpi / REFERENCE_DPI <=? 0)%float = true →
     _canvas_zoom_corrected raw dpi = raw) ∧
  (∀ raw dpi, (dpi / REFERENCE_DPI <=? 0)%float = false →
     (dpi / REFERENCE_DPI =? 0)%float = false ∧
     (dpi / REFERENCE_DPI <? 0)%float = false ∧
     _canvas_zoom_corrected raw dpi = (raw / (dpi / REFERENCE_DPI))%float).
Proof.
  split; [reflexivity|]. split.
  { intros h v [E|E]; unfold _doc_dpi; rewrite E; reflexivity. }
  split.
  { intros h v d E. unfold _doc_dpi. rewrite E. cbn.
    destruct (resolution h d) as [r|]; cbn; [|reflexivity].
    intros ->. reflexivity. }
  split.
  { intros h v d dpi E. unfold _doc_dpi. rewrite E. cbn.
    destruct (resolution h d) as [r|]; cbn; [|discriminate].
    intros -> Hneg. cbn. rewrite Hneg. reflexivity. }
  split; [exact doc_dpi_positive|]. split.
  { intros raw dpi G. rewrite corrected_guarded, G. reflexivity. }
  intros raw dpi G. split; [|split].
  - destruct (dpi / REFERENCE_DPI =? 0)%float eqn:Z; [|reflexivity].
    apply FloatOrder.eqb_leb in Z. congruence.
  - destruct (dpi / REFERENCE_DPI <? 0)%float eqn:L; [|reflexivity].
    apply FloatOrder.ltb_leb in L. congruence.
  - rewrite corrected_guarded, G. reflexivity.
Qed.

Lemma dpi_fallback_and_guarded_division_witness :
  let h := Sample.krita (Py.Float 1) (Py.Int 0) [] "a.kra" "/a.kra" in
  _doc_dpi h (Some 1%N) = REFERENCE_DPI ∧
  _canvas_zoom_corrected 3 (-72) = 3%float ∧
  _canvas_zoom_corrected 3 144 = (3 / (144 / REFERENCE_DPI))%float.
Proof.
  intros h.
  destruct dpi_fallback_and_guarded_division as (_ & _ & _ & Hneg & _ & Hkeep & Hdiv).
  split; [|split].
  - apply (Hneg h 1%N 1%N 0%float); reflexivity.
  - apply Hkeep. reflexivity.
  - apply Hdiv. reflexivity.
Defined.

(** ** The drag-to-zoom mapping and the state machine *)

Section Drag.

Variable float_pow2 : float → outcome float.

Lemma clamp_in_range scale : in_range (clamp_scale scale) = true.
Proof.
  unfold clamp_scale, Py.min, Py.max, in_range.
  destruct (scale <? 256)%float eqn:Hi; [|reflexivity].
  destruct (scale >? 0.01)%float eqn:Lo; [|reflexivity].
  now rewrite (FloatOrder.ltb_leb _ _ Hi), (FloatOrder.ltb_leb _ _ Lo).
Qed.

Lemma clamp_fixes_range scale :
  in_range scale = true → clamp_scale scale = scale.
Proof.
  unfold clamp_scale, Py.min, Py.max, in_range. intros R.
  apply andb_prop in R as [Lo Hi].
  destruct (scale <? 256)%float eqn:Hi'.
  - destruct (scale >? 0.01)%float eqn:Lo'; [reflexivity|].
    symmetry. now apply FloatOrder.leb_antisym_001.
  - rewrite (FloatOrder.leb_antisym_256 scale Hi Hi'). reflexivity.
Qed.

Lemma drag_to_zoom_in_range initial_scale sensitivity delta_x scale :
  drag_to_zoom float_pow2 initial_scale sensitivity delta_x = Returns scale →
  in_range scale = true.
Proof.
  unfold drag_to_zoom.
  destruct (Py.float_of_int delta_x) as [dx|]; cbn; [|discriminate].
  destruct (Py.truediv dx sensitivity) as [octaves|]; cbn; [|discriminate].
  destruct (float_pow2 octaves) as [factor|]; cbn; [|discriminate].
  intros [= <-]. apply clamp_in_range.
Qed.

(** C3 (amended): for every displacement, and every initial scale, the
    scale the drag-to-zoom mapping produces lies in [0.01, 256.0]; so does
    every value [update_zoom] hands to the host, keeps as the last scale
    and writes to the cache.  What [start_drag] stores is the estimate,
    which is not clamped. *)
Theorem drag_scales_in_range :
  (∀ scale, in_range (clamp_scale scale) = true) ∧
  (∀ initial_scale sensitivity delta_x scale,
     drag_to_zoom float_pow2 initial_scale sensitivity delta_x = Returns scale →
     in_range scale = true) ∧
  (∀ h pos self,
     let self' := update_zoom float_pow2 h pos self in
     self' = self ∨
     ∃ c scale,
       in_range scale = true ∧
       last_set_zoom_scale self' = Some scale ∧
       document_zoom_cache self' = cache_store h scale (document_zoom_cache self) ∧
       zoom_requests self' = zoom_requests self ++ [(c, scale)] ∧
       initial_zoom_scale self' = initial_zoom_scale self).
Proof.
  split; [exact clamp_in_range|]. split; [exact drag_to_zoom_in_range|].
  intros h pos self. unfold update_zoom.
  destruct (if is_dragging self then pos else None) as [p|]; [|now left].
  destruct (active_view self) as [v|]; [|now left].
  destruct (canvas h v) as [[c|]|]; cbn; try now left.
  destruct (drag_to_zoom _ _ _ _) as [scale|] eqn:E; cbn; [|now left].
  destruct (setZoomLevel h c scale); cbn; [|now left].
  right. exists c, scale. repeat split.
  exact (drag_to_zoom_in_range _ _ _ _ E).
Qed.

Lemma deactivate_sensitivity self :
  zoom_sensitivity (deactivate_zoom_mode self) = zoom_sensitivity self.
Proof. unfold deactivate_zoom_mode. now destruct (negb _). Qed.

Lemma start_drag_sensitivity h pos self :
  zoom_sensitivity (start_drag h pos self).2 = zoom_sensitivity self.
Proof.
  unfold start_drag.
  destruct (if _has_active_document h then pos else None);
    [|apply deactivate_sensitivity].
  now destruct (_get_current_zoom_scale _ _ _).
Qed.

Lemma update_zoom_sensitivity h pos self :
  zoom_sensitivity (update_zoom float_pow2 h pos self) = zoom_sensitivity self.
Proof.
  unfold update_zoom.
  destruct (if is_dragging self then pos else None); [|reflexivity].
  destruct (active_view self) as [v|]; [|reflexivity].
  destruct (canvas h v) as [[c|]|]; cbn; try reflexivity.
  destruct (drag_to_zoom _ _ _ _) as [scale|]; cbn; [|reflexivity].
  now destruct (setZoomLevel h c scale).
Qed.

(** The sensitivity is the constant set in [__init__]: 150 pixels to the
    octave. *)
Lemma reachable_sensitivity self :
  reachable float_pow2 self → zoom_sensitivity self = 150%float.
Proof.
  induction 1 as [|h self R IH|self R IH|h event self R IH|h pos self R IH M
                  |h pos self R IH|self R IH].
  - reflexivity.
  - unfold activate_zoom_mode. now destruct (_ || _).
  - now rewrite deactivate_sensitivity.
  - unfold eventFilter. destruct (negb _); [exact IH|].
    destruct event as [b gp gpf|gp gpf|b|rep|]; cbn [snd]; try exact IH.
    + destruct (is_left b); [|exact IH].
      rewrite <- IH, <- (start_drag_sensitivity h
        (_event_global_pos (MouseButtonPress b gp gpf)) self).
      now destruct (start_drag _ _ _).
    + destruct (is_dragging self); [|exact IH].
      cbn [snd]. now rewrite update_zoom_sensitivity.
    + now destruct (is_left b && is_dragging self).
    + destruct rep; [exact IH|]. cbn [negb snd]. now rewrite deactivate_sensitivity.
  - now rewrite start_drag_sensitivity.
  - now rewrite update_zoom_sensitivity.
  - exact IH.
Qed.

(** C6 (amended): in every reachable state the mapping at displacement 0
    gives the initial scale clamped to [0.01, 256.0]; for every initial
    scale inside that interval this is exactly the initial scale.  [pow] is
    taken to give [2.0 ** 0.0 = 1.0]. *)
Theorem zero_displacement_keeps_scale self initial_scale :
  float_pow2 0%float = Returns 1%float →
  reachable float_pow2 self →
  drag_to_zoom float_pow2 initial_scale (zoom_sensitivity self) 0
  = Returns (clamp_scale initial_scale) ∧
  (in_range initial_scale = true →
   drag_to_zoom float_pow2 initial_scale (zoom_sensitivity self) 0
   = Returns initial_scale).
Proof.
  intros Hpow R. rewrite (reachable_sensitivity self R).
  assert (drag_to_zoom float_pow2 initial_scale 150 0
          = Returns (clamp_scale initial_scale)) as E.
  { unfold drag_to_zoom.
    change (Py.float_of_int 0) with (Returns 0%float). cbn.
    change (Py.truediv 0 150) with (Returns 0%float). cbn.
    rewrite Hpow. cbn. now rewrite FloatOrder.mul_one_r. }
  split; [exact E|]. intros In. now rewrite E, clamp_fixes_range.
Qed.

(** C8: a key release that is not an auto-repeat, received while the mode
    is active (dragging or not), is passed through and leaves the plugin
    idle; from then on the filter consumes no event at all, and changes
    nothing, however many are delivered. *)
Theorem key_release_goes_idle h self :
  zoom_mode_active self = true →
  let after := eventFilter float_pow2 h (KeyRelease false) self in
  after.1 = Returns false ∧
  idle after.2 ∧
  ∀ events,
    deliver_all float_pow2 events after.2 =
    (map (λ _, Returns false) events, after.2).
Proof.
  intros M. unfold eventFilter, deactivate_zoom_mode. rewrite M. cbn.
  split; [reflexivity|]. split; [repeat split|].
  induction events as [|[h' e] events IH]; [reflexivity|].
  cbn [deliver_all map]. unfold eventFilter at 1. cbn.
  rewrite IH. reflexivity.
Qed.


End Drag.

(** ** The theorems at work on the sample host *)

Lemma sample_drag_reachable h px : reachable Libm.pow2 (Sample.dragging h px).
Proof.
  apply (reach_event Libm.pow2 h (Sample.press px)), reach_activate, reach_init.
Qed.



Lemma drag_scales_in_range_witness :
  drag_to_zoom Libm.pow2 1 150 300 = Returns 4%float ∧ in_range 4 = true.
Proof.
  split; [vm_compute; reflexivity|].
  apply (proj1 (proj2 (drag_scales_in_range Libm.pow2)) 1%float 150%float 300%Z).
  vm_compute. reflexivity.
Defined.

(** A press on a canvas zoomed out to 0.5% stores that estimate as the
    initial scale, the last scale and the cache entry of the document. *)
Lemma start_drag_stores_unclamped :
  let h := Sample.krita (Py.Float 0.005) (Py.Int 72) [] "a.kra" "/a.kra" in
  let self := Sample.dragging h 100 in
  reachable Libm.pow2 self ∧
  initial_zoom_scale self = 0.005%float ∧
  last_set_zoom_scale self = Some 0.005%float ∧
  document_zoom_cache self !! "/a.kra" = Some 0.005%float ∧
  in_range 0.005 = false.
Proof.
  intros h self. split; [apply sample_drag_reachable|].
  vm_compute. repeat split.
Qed.

Lemma zero_displacement_keeps_scale_witness :
  let h := Sample.krita (Py.Float 4.1667) (Py.Int 300) [] "a.kra" "/a.kra" in
  let self := Sample.dragging h 100 in
  drag_to_zoom Libm.pow2 (initial_zoom_scale self) (zoom_sensitivity self) 0
  = Returns (initial_zoom_scale self).
Proof.
  intros h self.
  apply (zero_displacement_keeps_scale Libm.pow2 self (initial_zoom_scale self)).
  - vm_compute. reflexivity.
  - apply (reach_event Libm.pow2 h (Sample.press 100)), reach_activate, reach_init.
  - vm_compute. reflexivity.
Defined.

(** From the initial scale 0.005, which a press on a canvas zoomed out to
    0.5% leaves behind, a move back to the press position sets the scale
    0.01; from an initial scale of 500 the mapping gives 256. *)
Lemma zero_displacement_clamps :
  let h := Sample.krita (Py.Float 0.005) (Py.Int 72) [] "a.kra" "/a.kra" in
  let self := Sample.dragging h 100 in
  initial_zoom_scale self = 0.005%float ∧
  drag_to_zoom Libm.pow2 (initial_zoom_scale self) (zoom_sensitivity self) 0
  = Returns 0.01%float ∧
  (0.01 =? 0.005)%float = false ∧
  last_set_zoom_scale (eventFilter Libm.pow2 h (Sample.move 100) self).2
  = Some 0.01%float ∧
  drag_to_zoom Libm.pow2 500 150 0 = Returns 256%float ∧
  (256 =? 500)%float = false.
Proof.
  vm_compute. repeat split.
Qed.

Lemma key_release_goes_idle_witness :
  let h := Sample.krita (Py.Float 4.1667) (Py.Int 300) [] "a.kra" "/a.kra" in
  let after := eventFilter Libm.pow2 h (KeyRelease false) (Sample.dragging h 100) in
  after.1 = Returns false ∧
  idle after.2 ∧
  deliver_all Libm.pow2 [(h, Sample.move 250); (h, Sample.press 10)] after.2
  = ([Returns false; Returns false], after.2).
Proof.
  intros h after.
  destruct (key_release_goes_idle Libm.pow2 h (Sample.dragging h 100))
    as (Passed & Idle & Later).
  - vm_compute. reflexivity.
  - split; [exact Passed|]. split; [exact Idle|].
    exact (Later [(h, Sample.move 250); (h, Sample.press 10)]).
Defined.


Lemma raw_unavailable_priority_witness :
  let h := Sample.no_canvas [Sample.label "zoomLabel" "66.7%"] "a.kra" "/a.kra" in
  let self := Sample.dragging
                (Sample.krita (Py.Float 2) (Py.Int 72) [] "a.kra" "/a.kra") 100 in
  _get_current_zoom_scale h self (Some 1%N) = Returns 2%float ∧
  _get_current_zoom_scale h __init__ (Some 1%N) = Returns (66.7 / 100)%float ∧
  _get_current_zoom_scale (Sample.no_canvas [] "a.kra" "/a.kra") __init__ (Some 1%N)
  = Returns 1%float.
Proof.
  intros h self. split; [|split].
  - apply (proj1 (raw_unavailable_priority h self (Some 1%N) eq_refl)).
    vm_compute. reflexivity.
  - apply (proj1 (proj2 (raw_unavailable_priority h __init__ (Some 1%N) eq_refl)));
      vm_compute; reflexivity.
  - apply (proj2 (proj2 (raw_unavailable_priority
                           (Sample.no_canvas [] "a.kra" "/a.kra") __init__
                           (Some 1%N) eq_refl)));
      vm_compute; reflexivity.
Defined.

(** ** More of the state machine *)

Lemma estimator_returns h self view :
  ∃ scale, _get_current_zoom_scale h self view = Returns scale.
Proof.
  destruct (_canvas_zoom_raw h view) as [raw|] eqn:Hraw.
  - destruct (positive_ui (_zoom_scale_from_ui h)) as [ui|] eqn:Hui.
    + rewrite (estimate_with_ui h self view raw ui Hraw Hui). eauto.
    + rewrite (estimate_without_ui h self view raw Hraw Hui). eauto.
  - rewrite (estimate_without_raw h self view Hraw). eauto.
Qed.

Lemma start_drag_returns h pos self : (start_drag h pos self).1 = Returns ().
Proof.
  unfold start_drag.
  destruct (if _has_active_document h then pos else None) as [p|]; [|reflexivity].
  match goal with
  | |- context [_get_current_zoom_scale ?a ?b ?c] =>
      destruct (estimator_returns a b c) as [scale ->]
  end.
  reflexivity.
Qed.

Section Machine.

Variable float_pow2 : float → outcome float.

Lemma filter_consumes_exactly_aux h event self :
  (eventFilter float_pow2 h event self).1 =
  Returns
    (zoom_mode_active self &&
     match event with
     | MouseButtonPress button _ _ => is_left button
     | MouseMove _ _ => is_dragging self
     | MouseButtonRelease button => is_left button && is_dragging self
     | KeyRelease _ | OtherEvent => false
     end).
Proof.
  unfold eventFilter. destruct (zoom_mode_active self); [|reflexivity].
  destruct event as [b gp gpf|gp gpf|b|rep|]; cbn [negb andb].
  - destruct (is_left b); [|reflexivity].
    pose proof (start_drag_returns h
      (_event_global_pos (MouseButtonPress b gp gpf)) self) as E.
    destruct (start_drag _ _ _) as [o self']. cbn in E. now subst o.
  - now destruct (is_dragging self).
  - now destruct (is_left b && is_dragging self).
  - now destruct rep.
  - reflexivity.
Qed.

(** X1: no exception escapes the event filter, and it consumes an event
    exactly when the mode is active and the event is a left press, a move
    during a drag, or a left release during a drag. *)
Theorem filter_consumes_exactly h event self :
  ∃ consumed,
    (eventFilter float_pow2 h event self).1 = Returns consumed ∧
    (consumed = true ↔
     zoom_mode_active self = true ∧
     match event with
     | MouseButtonPress button _ _ => button = LeftButton
     | MouseMove _ _ => is_dragging self = true
     | MouseButtonRelease button => button = LeftButton ∧ is_dragging self = true
     | KeyRelease _ | OtherEvent => False
     end).
Proof.
  rewrite filter_consumes_exactly_aux. eexists; split; [reflexivity|].
  rewrite andb_true_iff.
  destruct event as [[]|?|[]|?|]; cbn; rewrite ?andb_true_iff; intuition congruence.
Qed.

(** X2: an event the filter does not consume leaves the plugin exactly as
    it was, the key release that is not an auto-repeat apart. *)
Theorem unconsumed_event_changes_nothing h event self :
  (eventFilter float_pow2 h event self).1 = Returns false →
  event ≠ KeyRelease false →
  (eventFilter float_pow2 h event self).2 = self.
Proof.
  rewrite filter_consumes_exactly_aux. intros [= E] Hkey.
  unfold eventFilter. destruct (zoom_mode_active self); [|reflexivity].
  destruct event as [b gp gpf|gp gpf|b|[]|]; cbn [andb negb] in *;
    try reflexivity; try congruence.
  - now rewrite E.
  - now rewrite E.
  - now rewrite E.
Qed.

End Machine.

Section Lifecycle.

Variable float_pow2 : float → outcome float.

Lemma tidy_deactivate self : tidy self → tidy (deactivate_zoom_mode self).
Proof.
  unfold tidy, deactivate_zoom_mode. intros [C F].
  destruct (zoom_mode_active self) eqn:M; cbn; rewrite ?M; [|tauto].
  rewrite C. split; [reflexivity | discriminate].
Qed.

Lemma tidy_start_drag h pos self : tidy self → tidy (start_drag h pos self).2.
Proof.
  intros T. unfold start_drag.
  destruct (if _has_active_document h then pos else None);
    [|now apply tidy_deactivate].
  now destruct (_get_current_zoom_scale _ _ _).
Qed.

Lemma tidy_update_zoom h pos self :
  tidy self → tidy (update_zoom float_pow2 h pos self).
Proof.
  intros T. unfold update_zoom.
  destruct (if is_dragging self then pos else None); [|exact T].
  destruct (active_view self) as [v|]; [|exact T].
  destruct (canvas h v) as [[c|]|]; cbn; try exact T.
  destruct (drag_to_zoom _ _ _ _) as [scale|]; cbn; [|exact T].
  now destruct (setZoomLevel h c scale).
Qed.

Lemma tidy_eventFilter h event self :
  tidy self → tidy (eventFilter float_pow2 h event self).2.
Proof.
  intros T. unfold eventFilter. destruct (negb _); [exact T|].
  destruct event as [b gp gpf|gp gpf|b|rep|]; cbn [snd]; try exact T.
  - destruct (is_left b); [|exact T].
    pose proof (tidy_start_drag h
      (_event_global_pos (MouseButtonPress b gp gpf)) self T) as T'.
    now destruct (start_drag _ _ _).
  - destruct (is_dragging self); [|exact T]. now apply tidy_update_zoom.
  - now destruct (is_left b && is_dragging self).
  - destruct rep; [exact T|]. now apply tidy_deactivate.
Qed.

(** X3: in every reachable state the plugin holds exactly one override
    cursor while the mode is active and none while it is not, so a repeated
    activation never stacks a second cursor and every deactivation restores
    the one pushed; and the event filter is installed whenever the mode is
    active. *)
Theorem cursor_pushed_once self :
  reachable float_pow2 self →
  override_cursors self = (if zoom_mode_active self then 1 else 0) ∧
  (zoom_mode_active self = true → filter_installed self = true).
Proof.
  induction 1 as [|h self R IH|self R IH|h event self R IH|h pos self R IH M
                  |h pos self R IH|self R IH].
  - split; [reflexivity | discriminate].
  - unfold activate_zoom_mode.
    destruct (negb (_has_active_document h)); cbn [orb]; [exact IH|].
    destruct (zoom_mode_active self) eqn:M; [now rewrite M|].
    cbn. destruct IH as [-> _]. tauto.
  - now apply tidy_deactivate.
  - now apply tidy_eventFilter.
  - now apply tidy_start_drag.
  - now apply tidy_update_zoom.
  - exact IH.
Qed.

(** X4: a left press on an open document followed by a left release is a
    full drag cycle: both events are consumed, the mode stays active, the
    drag flag and the view are cleared again, and the scale captured at the
    press stays in the initial scale, the last scale and the cache. *)
Theorem press_then_release h h' p posF self :
  zoom_mode_active self = true →
  _has_active_document h = true →
  let pressed :=
    eventFilter float_pow2 h (MouseButtonPress LeftButton (Returns p) posF) self in
  let released :=
    eventFilter float_pow2 h' (MouseButtonRelease LeftButton) pressed.2 in
  pressed.1 = Returns true ∧
  is_dragging pressed.2 = true ∧
  drag_start_x pressed.2 = x p ∧
  released.1 = Returns true ∧
  zoom_mode_active released.2 = true ∧
  is_dragging released.2 = false ∧
  active_view released.2 = None ∧
  initial_zoom_scale released.2 = initial_zoom_scale pressed.2 ∧
  last_set_zoom_scale released.2 = Some (initial_zoom_scale pressed.2) ∧
  document_zoom_cache released.2 = document_zoom_cache pressed.2.
Proof.
  intros M A. cbv zeta. unfold eventFilter. rewrite M. cbn [negb is_left].
  unfold start_drag. rewrite A. cbn [_event_global_pos try_except fmap outcome_fmap].
  match goal with
  | |- context [_get_current_zoom_scale ?a ?b ?c] =>
      destruct (estimator_returns a b c) as [scale ->]
  end.
  cbn. rewrite M. cbn. repeat split.
Qed.

(** X5: a left press that cannot start a drag, for want of a document or of
    a position, is consumed all the same and leaves the plugin idle. *)
Theorem aborted_press_is_consumed h button_pos posF self :
  zoom_mode_active self = true →
  _has_active_document h = false ∨
  _event_global_pos (MouseButtonPress LeftButton button_pos posF) = None →
  let pressed :=
    eventFilter float_pow2 h (MouseButtonPress LeftButton button_pos posF) self in
  pressed.1 = Returns true ∧ idle pressed.2 ∧ override_cursors pressed.2 =
  Nat.pred (override_cursors self).
Proof.
  intros M Hno. unfold eventFilter. rewrite M. cbn [negb is_left].
  assert ((if _has_active_document h
           then _event_global_pos (MouseButtonPress LeftButton button_pos posF)
           else None) = None) as E
    by (destruct Hno as [-> | ->]; [|destruct (_has_active_document h)];
        reflexivity).
  unfold start_drag. rewrite E. unfold deactivate_zoom_mode. rewrite M. cbn.
  repeat split.
Qed.

End Lifecycle.

Section Requests.

Variable float_pow2 : float → outcome float.

(** Every field of the session but the last scale, the cache and the
    request log is the same after [update_zoom]. *)
Lemma update_zoom_frame h pos self :
  let self' := update_zoom float_pow2 h pos self in
  is_dragging self' = is_dragging self ∧
  active_view self' = active_view self ∧
  drag_start_x self' = drag_start_x self ∧
  initial_zoom_scale self' = initial_zoom_scale self ∧
  zoom_sensitivity self' = zoom_sensitivity self.
Proof.
  unfold update_zoom.
  destruct (if is_dragging self then pos else None); [|tauto].
  destruct (active_view self) as [v|] eqn:V; [|rewrite V; tauto].
  destruct (canvas h v) as [[c|]|]; cbn; rewrite ?V; try tauto.
  destruct (drag_to_zoom _ _ _ _) as [scale|]; cbn; rewrite ?V; try tauto.
  destruct (setZoomLevel h c scale); cbn; rewrite ?V; tauto.
Qed.

(** What a move does, read off the host and the fields it depends on. *)
Lemma update_zoom_cases h pos self :
  let self' := update_zoom float_pow2 h pos self in
  (self' = self ∧
   ∀ other, is_dragging other = is_dragging self →
            active_view other = active_view self →
            drag_start_x other = drag_start_x self →
            initial_zoom_scale other = initial_zoom_scale self →
            zoom_sensitivity other = zoom_sensitivity self →
            update_zoom float_pow2 h pos other = other) ∨
  (∃ c scale,
     in_range scale = true ∧
     zoom_requests self' = zoom_requests self ++ [(c, scale)] ∧
     last_set_zoom_scale self' = Some scale ∧
     document_zoom_cache self' = cache_store h scale (document_zoom_cache self) ∧
     ∀ other, is_dragging other = is_dragging self →
              active_view other = active_view self →
              drag_start_x other = drag_start_x self →
              initial_zoom_scale other = initial_zoom_scale self →
              zoom_sensitivity other = zoom_sensitivity self →
              zoom_requests (update_zoom float_pow2 h pos other)
              = zoom_requests other ++ [(c, scale)] ∧
              last_set_zoom_scale (update_zoom float_pow2 h pos other)
              = Some scale).
Proof.
  unfold update_zoom.
  destruct (if is_dragging self then pos else None) as [p|] eqn:P.
  2: { left. split; [reflexivity|]. intros other -> _ _ _ _. now rewrite P. }
  destruct (active_view self) as [v|] eqn:V.
  2: { left. split; [reflexivity|]. intros other -> -> _ _ _. now rewrite P. }
  destruct (canvas h v) as [[c|]|] eqn:Cv; cbn.
  2,3: left; split; [reflexivity|]; intros other -> -> _ _ _; rewrite P, Cv;
       reflexivity.
  destruct (drag_to_zoom _ _ _ _) as [scale|] eqn:D; cbn.
  2: { left. split; [reflexivity|]. intros other -> -> -> -> ->.
       rewrite P, Cv. cbn. rewrite D. reflexivity. }
  destruct (setZoomLevel h c scale) eqn:Z; cbn.
  2: { left. split; [reflexivity|]. intros other -> -> -> -> ->.
       rewrite P, Cv. cbn. rewrite D. cbn. rewrite Z. reflexivity. }
  right. exists c, scale. split; [exact (drag_to_zoom_in_range _ _ _ _ _ D)|].
  do 3 (split; [reflexivity|]).
  intros other -> -> -> -> ->. rewrite P, Cv. cbn. rewrite D. cbn. rewrite Z.
  split; reflexivity.
Qed.

Lemma requests_start_drag h pos self :
  zoom_requests (start_drag h pos self).2 = zoom_requests self.
Proof.
  unfold start_drag.
  destruct (if _has_active_document h then pos else None).
  - now destruct (_get_current_zoom_scale _ _ _).
  - unfold deactivate_zoom_mode. now destruct (negb _).
Qed.

Lemma requests_in_range_update h pos self :
  Forall (λ r, in_range r.2 = true) (zoom_requests self) →
  Forall (λ r, in_range r.2 = true) (zoom_requests (update_zoom float_pow2 h pos self)).
Proof.
  intros F. destruct (update_zoom_cases h pos self) as [[-> _]|(c & scale & R & -> & _)];
    [exact F|].
  apply Forall_app. split; [exact F|]. now repeat constructor.
Qed.

(** X6: in every reachable state, every scale the plugin has handed to the
    host's [setZoomLevel] lies in [0.01, 256.0]. *)
Theorem requests_stay_in_range self :
  reachable float_pow2 self →
  Forall (λ request, in_range request.2 = true) (zoom_requests self).
Proof.
  induction 1 as [|h self R IH|self R IH|h event self R IH|h pos self R IH M
                  |h pos self R IH|self R IH].
  - constructor.
  - unfold activate_zoom_mode. now destruct (_ || _).
  - unfold deactivate_zoom_mode. now destruct (negb _).
  - unfold eventFilter. destruct (negb _); [exact IH|].
    destruct event as [b gp gpf|gp gpf|b|rep|]; cbn [snd]; try exact IH.
    + destruct (is_left b); [|exact IH].
      rewrite <- (requests_start_drag h
        (_event_global_pos (MouseButtonPress b gp gpf)) self) in IH.
      now destruct (start_drag _ _ _).
    + destruct (is_dragging self); [|exact IH]. now apply requests_in_range_update.
    + now destruct (is_left b && is_dragging self).
    + destruct rep; [exact IH|]. cbn [negb snd].
      unfold deactivate_zoom_mode. now destruct (negb _).
  - now rewrite requests_start_drag.
  - now apply requests_in_range_update.
  - exact IH.
Qed.

(** X7: the drag is positional, not cumulative: what a move asks of the
    host, and the last scale it leaves, are the same whether or not other
    moves came before it in the drag. *)
Theorem drag_is_positional h1 p1 h2 p2 self asked :
  zoom_requests (update_zoom float_pow2 h2 p2 self) = zoom_requests self ++ asked →
  let before := update_zoom float_pow2 h1 p1 self in
  zoom_requests (update_zoom float_pow2 h2 p2 before)
  = zoom_requests before ++ asked ∧
  (asked ≠ [] →
   last_set_zoom_scale (update_zoom float_pow2 h2 p2 before)
   = last_set_zoom_scale (update_zoom float_pow2 h2 p2 self)).
Proof.
  intros Hasked before.
  destruct (update_zoom_frame h1 p1 self) as (E1 & E2 & E3 & E4 & E5).
  fold before in E1, E2, E3, E4, E5.
  destruct (update_zoom_cases h2 p2 self)
    as [[Same Other]|(c & scale & _ & Req & Last & _ & Other)].
  - rewrite Same in Hasked.
    assert (asked = []) as -> by
      (apply (app_inv_head (zoom_requests self)); now rewrite app_nil_r).
    rewrite (Other before E1 E2 E3 E4 E5), app_nil_r. split; [reflexivity|easy].
  - rewrite Req in Hasked. apply app_inv_head in Hasked. subst asked.
    destruct (Other before E1 E2 E3 E4 E5) as [-> ->]. now rewrite Last.
Qed.

End Requests.

Section Cache.

Variable float_pow2 : float → outcome float.

Lemma cache_store_lookup h scale cache key :
  _get_document_id h = Some key → cache_store h scale cache !! key = Some scale.
Proof.
  intros E. unfold cache_store. rewrite truthy_document_id, E.
  apply lookup_insert_eq.
Qed.

Lemma cache_store_other h scale cache key :
  _get_document_id h ≠ Some key → cache_store h scale cache !! key = cache !! key.
Proof.
  intros E. unfold cache_store. rewrite truthy_document_id.
  destruct (_get_document_id h) as [key'|]; [|reflexivity].
  apply lookup_insert_ne. congruence.
Qed.

Lemma cache_store_keeps h scale cache key :
  is_Some (cache !! key) → is_Some (cache_store h scale cache !! key).
Proof.
  intros S. destruct (decide (_get_document_id h = Some key)) as [E|E].
  - rewrite (cache_store_lookup h scale cache key E). eauto.
  - now rewrite cache_store_other.
Qed.

Lemma cached_estimate h self view key scale :
  _get_document_id h = Some key →
  document_zoom_cache self !! key = Some scale →
  _canvas_zoom_raw h view = None →
  _get_current_zoom_scale h self view = Returns scale.
Proof.
  intros Id C Raw. rewrite (estimate_without_raw h self view Raw).
  unfold cached_scale. rewrite Id. cbn. now rewrite C.
Qed.

(** X8: the scale captured at a press is stored under the document's id,
    and is what the estimator answers for that document later on, whenever
    the raw getter is unavailable. *)
Theorem cache_remembers_press h pos self key :
  _has_active_document h = true →
  _get_document_id h = Some key →
  let pressed := (start_drag h (Some pos) self).2 in
  document_zoom_cache pressed !! key = Some (initial_zoom_scale pressed) ∧
  last_set_zoom_scale pressed = Some (initial_zoom_scale pressed) ∧
  ∀ h' view,
    _get_document_id h' = Some key →
    _canvas_zoom_raw h' view = None →
    _get_current_zoom_scale h' pressed view = Returns (initial_zoom_scale pressed).
Proof.
  intros A Id. unfold start_drag. rewrite A.
  match goal with
  | |- context [_get_current_zoom_scale ?a ?b ?c] =>
      destruct (estimator_returns a b c) as [scale ->]
  end.
  cbn [snd initial_zoom_scale last_set_zoom_scale document_zoom_cache].
  pose proof (cache_store_lookup h scale (document_zoom_cache self) key Id) as L.
  split; [exact L|]. split; [reflexivity|].
  intros h' view Id' Raw. now apply (cached_estimate h' _ view key).
Qed.

(** X9: a move that reaches the host stores the scale it set under the
    document's id, where the estimator finds it when the raw getter is
    unavailable. *)
Theorem cache_follows_drag h pos self key c scale :
  let moved := update_zoom float_pow2 h pos self in
  zoom_requests moved = zoom_requests self ++ [(c, scale)] →
  _get_document_id h = Some key →
  last_set_zoom_scale moved = Some scale ∧
  document_zoom_cache moved !! key = Some scale ∧
  ∀ h' view,
    _get_document_id h' = Some key →
    _canvas_zoom_raw h' view = None →
    _get_current_zoom_scale h' moved view = Returns scale.
Proof.
  intros moved Req Id. subst moved.
  destruct (update_zoom_cases float_pow2 h pos self)
    as [[Same _]|(c' & scale' & _ & Req' & Last & Store & _)].
  - rewrite Same in Req. exfalso.
    apply (f_equal length) in Req. rewrite length_app in Req. cbn in Req. lia.
  - rewrite Req' in Req. apply app_inv_head in Req. injection Req as <- <-.
    assert (document_zoom_cache (update_zoom float_pow2 h pos self) !! key
            = Some scale') as L
      by (rewrite Store; now apply cache_store_lookup).
    split; [exact Last|]. split; [exact L|].
    intros h' view Id' Raw. now apply (cached_estimate h' _ view key).
Qed.

Lemma cache_start_drag h pos self key :
  (is_Some (document_zoom_cache self !! key) →
   is_Some (document_zoom_cache (start_drag h pos self).2 !! key)) ∧
  (_get_document_id h ≠ Some key →
   document_zoom_cache (start_drag h pos self).2 !! key
   = document_zoom_cache self !! key).
Proof.
  unfold start_drag.
  destruct (if _has_active_document h then pos else None).
  - destruct (_get_current_zoom_scale _ _ _); cbn [snd document_zoom_cache];
      [|tauto].
    split; [apply cache_store_keeps | apply cache_store_other].
  - unfold deactivate_zoom_mode. now destruct (negb _).
Qed.

(** X10: the filter never forgets a document: an event leaves every cache
    entry in place, and changes no entry but that of the current
    document. *)
Theorem cache_never_forgets h event self key :
  let after := (eventFilter float_pow2 h event self).2 in
  (is_Some (document_zoom_cache self !! key) →
   is_Some (document_zoom_cache after !! key)) ∧
  (_get_document_id h ≠ Some key →
   document_zoom_cache after !! key = document_zoom_cache self !! key).
Proof.
  unfold eventFilter. destruct (negb _); [tauto|].
  destruct event as [b gp gpf|gp gpf|b|rep|]; cbn [snd]; try tauto.
  - destruct (is_left b); [|tauto].
    pose proof (cache_start_drag h
      (_event_global_pos (MouseButtonPress b gp gpf)) self key) as C.
    now destruct (start_drag _ _ _).
  - destruct (is_dragging self); [|tauto]. cbn [snd].
    destruct (update_zoom_cases float_pow2 h
                (_event_global_pos (MouseMove gp gpf)) self)
      as [[-> _]|(c & scale & _ & _ & _ & -> & _)]; [tauto|].
    split; [apply cache_store_keeps | apply cache_store_other].
  - now destruct (is_left b && is_dragging self).
  - destruct rep; cbn [negb snd]; [tauto|].
    unfold deactivate_zoom_mode. now destruct (negb _).
Qed.

End Cache.

(** ** Document ids *)

(** X11: a saved document is cached under its file name and an unsaved one
    under "untitled_" and its object id, so the id is never empty and two
    unsaved documents with different object ids never share a cache
    entry. *)
Theorem document_ids_tell_documents_apart h h' d d' key :
  instance h = true → instance h' = true →
  activeDocument h = Returns (Some d) →
  activeDocument h' = Returns (Some d') →
  (∀ name, fileName h d = Returns name → name ≠ EmptyString →
     _get_document_id h = Some name) ∧
  (fileName h d = Returns EmptyString → fileName h' d' = Returns EmptyString →
   py_id h d ≠ py_id h' d' → _get_document_id h ≠ _get_document_id h') ∧
  (_get_document_id h = Some key → key ≠ EmptyString).
Proof.
  intros I I' D D'. unfold _get_document_id. rewrite I, I', D, D'. cbn.
  split; [|split].
  - intros name -> Hne. cbn. now destruct name.
  - intros -> -> Hne. cbn. intros [= E]. apply Hne.
    apply String.app_inj in E. now apply (inj pretty) in E.
  - destruct (fileName h d) as [[|c f]|]; cbn; intros [= <-]; discriminate.
Qed.

(** ** Exact divisions and the estimate at the reference DPI *)

Module FloatExact.

(** Rounding a float that is already in canonical form changes nothing. *)
Lemma round_canonical s m e :
  bounded prec emax m e = true →
  binary_round_aux prec emax s (Zpos m) e loc_Exact = S754_finite s m e.
Proof.
  unfold bounded, canonical_mantissa. intros Hb.
  apply andb_prop in Hb as [Hc He]. apply Z.eqb_eq in Hc.
  unfold binary_round_aux, shr_fexp. cbn [Zdigits2 shr_record_of_loc].
  rewrite Hc, Z.sub_diag.
  cbn [shr shr_m loc_of_shr_record round_nearest_even Zdigits2 shr_record_of_loc].
  rewrite Hc, Z.sub_diag. cbn [shr shr_m]. rewrite He. reflexivity.
Qed.

(** Nor does rounding it from a mantissa twice as long, one exponent down. *)
Lemma round_doubled s m e :
  bounded prec emax m e = true →
  fexp prec emax (Zpos (digits2_pos m) + e - 1) = (e - 1)%Z →
  binary_round_aux prec emax s (Zpos m~0) (e - 1) loc_Exact = S754_finite s m e.
Proof.
  unfold bounded, canonical_mantissa. intros Hb Hd.
  apply andb_prop in Hb as [Hc He]. apply Z.eqb_eq in Hc.
  unfold binary_round_aux, shr_fexp. cbn [Zdigits2 digits2_pos shr_record_of_loc].
  rewrite Pos2Z.inj_succ.
  replace (Z.succ (Z.pos (digits2_pos m)) + (e - 1))%Z
    with (Z.pos (digits2_pos m) + e)%Z by lia.
  rewrite Hc. replace (e - (e - 1))%Z with 1%Z by lia.
  cbn [shr SpecFloat.iter_pos shr_1 orb shr_m loc_of_shr_record round_nearest_even].
  replace (e - 1 + 1)%Z with e by lia.
  cbn [Zdigits2]. rewrite Hc, Z.sub_diag. cbn [shr shr_record_of_loc shr_m].
  rewrite He. reflexivity.
Qed.

(** The quotient of a float by 1.0, before rounding: the mantissa itself,
    or its double one exponent down, and nothing left over. *)
Lemma div_core_by_one m e :
  bounded prec emax m e = true →
  SFdiv_core_binary prec emax (Zpos m) e 4503599627370496 (-52)
  = (Zpos m, e, loc_Exact) ∨
  (SFdiv_core_binary prec emax (Zpos m) e 4503599627370496 (-52)
   = (Zpos m~0, (e - 1)%Z, loc_Exact) ∧
   fexp prec emax (Zpos (digits2_pos m) + e - 1) = (e - 1)%Z).
Proof.
  unfold bounded, canonical_mantissa. intros Hb.
  apply andb_prop in Hb as [Hc He]. apply Z.eqb_eq in Hc.
  unfold SFdiv_core_binary.
  change (Zdigits2 (Z.pos 4503599627370496)) with 53%Z.
  change (Zdigits2 (Z.pos m)) with (Z.pos (digits2_pos m)).
  set (d := Z.pos (digits2_pos m)) in *.
  assert (0 < d)%Z by (subst d; lia).
  set (e' := Z.min _ _).
  assert (e' = e ∨ e' = (e - 1)%Z ∧ fexp prec emax (d + e - 1) = (e - 1)%Z)
    as [E | [E F]]
    by (subst e'; unfold fexp, SpecFloat.emin, prec, emax in *; lia).
  - left. rewrite E. replace (e - -52 - e)%Z with 52%Z by lia.
    rewrite Z.shiftl_mul_pow2 by lia.
    pose proof (Z.div_eucl_eq (Z.pos m * 2 ^ 52) 4503599627370496 ltac:(lia)) as Q.
    pose proof (Z.mod_pos_bound (Z.pos m * 2 ^ 52) 4503599627370496 ltac:(lia)) as B.
    unfold Z.modulo in B.
    destruct (Z.div_eucl (Z.pos m * 2 ^ 52) 4503599627370496) as [q r].
    change (2 ^ 52)%Z with 4503599627370496%Z in *.
    assert (q = Z.pos m ∧ r = 0)%Z as [-> ->] by nia.
    reflexivity.
  - right. split; [|exact F]. rewrite E.
    replace (e - -52 - (e - 1))%Z with 53%Z by lia.
    rewrite Z.shiftl_mul_pow2 by lia.
    pose proof (Z.div_eucl_eq (Z.pos m * 2 ^ 53) 4503599627370496 ltac:(lia)) as Q.
    pose proof (Z.mod_pos_bound (Z.pos m * 2 ^ 53) 4503599627370496 ltac:(lia)) as B.
    unfold Z.modulo in B.
    destruct (Z.div_eucl (Z.pos m * 2 ^ 53) 4503599627370496) as [q r].
    change (2 ^ 53)%Z with 9007199254740992%Z in *.
    assert (q = Z.pos m~0 ∧ r = 0)%Z as [-> ->] by nia.
    reflexivity.
Qed.

(** [x / 1.0] is [x], bit for bit. *)
Lemma div_one_r x : (x / 1)%float = x.
Proof.
  apply Prim2SF_inj. rewrite div_spec.
  change (Prim2SF 1) with (S754_finite false 4503599627370496 (-52)).
  pose proof (Prim2SF_valid x) as Hv.
  destruct (Prim2SF x) as [[]|[]| |s m e]; try reflexivity.
  unfold SF64div, SFdiv.
  destruct (div_core_by_one m e Hv) as [-> | [-> Hd]].
  - rewrite round_canonical by exact Hv. destruct s; reflexivity.
  - rewrite round_doubled by assumption. destruct s; reflexivity.
Qed.

End FloatExact.

Lemma corrected_at_reference raw : _canvas_zoom_corrected raw REFERENCE_DPI = raw.
Proof.
  rewrite corrected_guarded. unfold REFERENCE_DPI.
  change (72 / 72)%float with 1%float. change (1 <=? 0)%float with false.
  apply FloatExact.div_one_r.
Qed.

(** X12: at the reference DPI the correction is the identity, bit for bit;
    so whenever the document reports 72 DPI, or its DPI cannot be read, the
    estimator returns the raw value unchanged, whatever the UI shows. *)
Theorem reference_dpi_returns_raw h self view raw :
  _canvas_zoom_raw h view = Some raw →
  _doc_dpi h view = REFERENCE_DPI →
  _canvas_zoom_corrected raw (_doc_dpi h view) = raw ∧
  _get_current_zoom_scale h self view = Returns raw.
Proof.
  intros Hraw Hdpi. rewrite Hdpi, corrected_at_reference. split; [reflexivity|].
  destruct (positive_ui (_zoom_scale_from_ui h)) as [ui|] eqn:Hui.
  - rewrite (estimate_with_ui h self view raw ui Hraw Hui).
    rewrite Hdpi, corrected_at_reference. now destruct (_ <=? _)%float.
  - rewrite (estimate_without_ui h self view raw Hraw Hui). cbn zeta.
    rewrite Hdpi. reflexivity.
Qed.

(** X13: while the raw getter answers, the estimate is the raw value or its
    correction and nothing else: the UI value only arbitrates between the
    two, and the cache and the rest of the session are not consulted. *)
Theorem estimate_is_raw_or_corrected h self view raw :
  _canvas_zoom_raw h view = Some raw →
  (_get_current_zoom_scale h self view = Returns raw ∨
   _get_current_zoom_scale h self view
   = Returns (_canvas_zoom_corrected raw (_doc_dpi h view))) ∧
  ∀ other, _get_current_zoom_scale h other view = _get_current_zoom_scale h self view.
Proof.
  intros Hraw.
  destruct (positive_ui (_zoom_scale_from_ui h)) as [ui|] eqn:Hui.
  - split.
    + rewrite (estimate_with_ui h self view raw ui Hraw Hui).
      destruct (_ <=? _)%float; tauto.
    + intros other. now rewrite !(estimate_with_ui h _ view raw ui Hraw Hui).
  - split.
    + rewrite (estimate_without_ui h self view raw Hraw Hui). cbn zeta.
      repeat match goal with |- context [if ?b then _ else _] => destruct b end;
        tauto.
    + intros other. now rewrite !(estimate_without_ui h _ view raw Hraw Hui).
Qed.

(** X14: the clamp saturates and settles: below 0.01 it gives 0.01, above
    256 and on a NaN it gives 256, applied twice it gives what it gives
    once, and it never reverses the order of two scales. *)
Theorem clamp_saturates :
  (∀ scale, (scale <? 0.01)%float = true → clamp_scale scale = 0.01%float) ∧
  (∀ scale, (scale >? 256)%float = true → clamp_scale scale = 256%float) ∧
  (∀ scale, is_nan scale = true → clamp_scale scale = 256%float) ∧
  (∀ scale, clamp_scale (clamp_scale scale) = clamp_scale scale) ∧
  (∀ low high, (low <=? high)%float = true →
     (clamp_scale low <=? clamp_scale high)%float = true).
Proof.
  split; [|split; [|split; [|split]]].
  - intros scale L. unfold clamp_scale, Py.min, Py.max.
    destruct (scale <? 256)%float eqn:Hi; [|exfalso; revert L Hi; FloatOrder.by_ranks].
    destruct (scale >? 0.01)%float eqn:Lo; [|reflexivity].
    exfalso. revert L Lo. FloatOrder.by_ranks.
  - intros scale G. unfold clamp_scale, Py.min, Py.max.
    destruct (scale <? 256)%float eqn:Hi; [|reflexivity].
    exfalso. revert G Hi. FloatOrder.by_ranks.
  - intros scale N. unfold clamp_scale, Py.min, Py.max, is_nan in *.
    destruct (scale <? 256)%float eqn:Hi; [|reflexivity].
    exfalso. apply negb_true_iff in N. revert N Hi. FloatOrder.by_ranks.
  - intros scale. apply clamp_fixes_range, clamp_in_range.
  - intros low high L. unfold clamp_scale, Py.min, Py.max.
    destruct (low <? 256)%float eqn:A, (high <? 256)%float eqn:B;
      repeat match goal with
        | |- context [if ?b then _ else _] => destruct b eqn:?
        end;
      FloatOrder.by_ranks.
Qed.

(** ** The percent patterns *)

Module TextFacts.

Lemma app_cons c a s : String c a +:+ s = String c (a +:+ s).
Proof. reflexivity. Qed.

Lemma app_nil s : EmptyString +:+ s = s.
Proof. reflexivity. Qed.

Lemma app_assoc a b c : (a +:+ b) +:+ c = a +:+ (b +:+ c).
Proof. induction a as [|x a IH]; [reflexivity|]. now rewrite !app_cons, IH. Qed.

Lemma token_not_space c : token_char c = true → Text.is_space c = false.
Proof. destruct c as [[] [] [] [] [] [] [] []]; vm_compute; congruence. Qed.

Lemma space_not_token c : Text.is_space c = true → token_char c = false.
Proof. destruct c as [[] [] [] [] [] [] [] []]; vm_compute; congruence. Qed.

Lemma percent_is c :
  Text.is_percent c = true ↔ c = "%"%char.
Proof. destruct c as [[] [] [] [] [] [] [] []]; vm_compute; split; congruence. Qed.

Lemma at_is c : Text.is_at c = true ↔ c = "@"%char.
Proof. destruct c as [[] [] [] [] [] [] [] []]; vm_compute; split; congruence. Qed.

Lemma skip_spaces_app a s :
  all_chars Text.is_space a = true →
  Text.skip_spaces (a +:+ s) = Text.skip_spaces s.
Proof.
  induction a as [|c a IH]; [reflexivity|]. cbn [all_chars].
  intros [Hc Ha]%andb_prop. rewrite app_cons. cbn [Text.skip_spaces].
  rewrite Hc. now apply IH.
Qed.

Lemma skip_spaces_stop s :
  starts_with Text.is_space s = false → Text.skip_spaces s = s.
Proof. destruct s as [|c s]; [reflexivity|]. cbn. now intros ->. Qed.

Lemma skip_spaces_empty s :
  Text.skip_spaces s = EmptyString ↔ all_chars Text.is_space s = true.
Proof.
  induction s as [|c s IH]; [easy|]. cbn [Text.skip_spaces all_chars].
  destruct (Text.is_space c); cbn; [exact IH | easy].
Qed.

Lemma skip_spaces_split s :
  ∃ a, all_chars Text.is_space a = true ∧ s = a +:+ Text.skip_spaces s ∧
       starts_with Text.is_space (Text.skip_spaces s) = false.
Proof.
  induction s as [|c s (a & Ha & Hs & Hn)].
  - exists EmptyString. repeat split.
  - cbn [Text.skip_spaces]. destruct (Text.is_space c) eqn:Hc.
    + exists (String c a). cbn [all_chars]. rewrite Hc, Ha, app_cons, <- Hs.
      repeat split. exact Hn.
    + exists EmptyString. repeat split. exact Hc.
Qed.

Lemma number_token_split s :
  let '(tok, rest) := Text.number_token s in
  s = tok +:+ rest ∧ all_chars token_char tok = true ∧
  starts_with token_char rest = false.
Proof.
  induction s as [|c s IH]; [repeat split|].
  cbn [Text.number_token]. fold (token_char c).
  destruct (token_char c) eqn:Hc.
  - destruct (Text.number_token s) as [tok rest]. destruct IH as (-> & Ht & Hr).
    cbn [all_chars]. now rewrite Hc, Ht.
  - repeat split. exact Hc.
Qed.

Lemma number_token_app tok rest :
  all_chars token_char tok = true →
  starts_with token_char rest = false →
  Text.number_token (tok +:+ rest) = (tok, rest).
Proof.
  intros Ht Hr. induction tok as [|c tok IH].
  - rewrite app_nil. destruct rest as [|c rest]; [reflexivity|].
    cbn in Hr |- *. fold (token_char c). now rewrite Hr.
  - cbn [all_chars] in Ht. apply andb_prop in Ht as [Hc Ht].
    rewrite app_cons. cbn [Text.number_token]. fold (token_char c).
    now rewrite Hc, (IH Ht).
Qed.

Lemma percent_prefix_sound s tok rest :
  Text.percent_prefix s = Some (tok, rest) →
  tok ≠ EmptyString ∧ all_chars token_char tok = true ∧
  ∃ a b, all_chars Text.is_space a = true ∧ all_chars Text.is_space b = true ∧
         s = a +:+ tok +:+ b +:+ "%" +:+ rest.
Proof.
  unfold Text.percent_prefix.
  destruct (skip_spaces_split s) as (a & Ha & Hs & _).
  pose proof (number_token_split (Text.skip_spaces s)) as Hn.
  destruct (Text.number_token (Text.skip_spaces s)) as [tok' r1].
  destruct Hn as (Hs1 & Ht & _).
  destruct tok' as [|c tok']; [discriminate|].
  destruct (skip_spaces_split r1) as (b & Hb & Hr1 & _).
  destruct (Text.skip_spaces r1) as [|p rest'] eqn:Hp; [discriminate|].
  destruct (Text.is_percent p) eqn:Hper; [|discriminate].
  apply percent_is in Hper. subst p. intros [= <- <-].
  split; [discriminate|]. split; [exact Ht|].
  exists a, b. split; [exact Ha|]. split; [exact Hb|].
  rewrite Hs at 1. rewrite Hs1, Hr1. reflexivity.
Qed.

Lemma percent_prefix_complete a tok b rest :
  tok ≠ EmptyString → all_chars token_char tok = true →
  all_chars Text.is_space a = true → all_chars Text.is_space b = true →
  Text.percent_prefix (a +:+ tok +:+ b +:+ "%" +:+ rest) = Some (tok, rest).
Proof.
  intros Hne Ht Ha Hb. unfold Text.percent_prefix.
  rewrite (skip_spaces_app a _ Ha).
  assert (starts_with token_char (b +:+ "%" +:+ rest) = false) as Hstop.
  { destruct b as [|c b]; [reflexivity|]. cbn in Hb |- *.
    apply andb_prop in Hb as [Hc _]. now apply space_not_token. }
  destruct tok as [|c tok]; [congruence|].
  rewrite skip_spaces_stop.
  2: { cbn in Ht |- *. apply andb_prop in Ht as [Hc _]. now apply token_not_space. }
  rewrite (number_token_app _ _ Ht Hstop).
  rewrite (skip_spaces_app b _ Hb). reflexivity.
Qed.

End TextFacts.

(** X15: the widget pattern accepts exactly a number token with a percent
    sign after it, blanks allowed around each and nothing else: the text
    matches if and only if it is blanks, a non-empty run of digits and
    dots, blanks, "%" and blanks, and the group is that run. *)
Theorem match_percent_exactly text tok :
  Text.match_percent text = Some tok ↔
  tok ≠ EmptyString ∧ all_chars token_char tok = true ∧
  ∃ a b c,
    all_chars Text.is_space a = true ∧ all_chars Text.is_space b = true ∧
    all_chars Text.is_space c = true ∧
    text = a +:+ tok +:+ b +:+ "%" +:+ c.
Proof.
  unfold Text.match_percent. split.
  - destruct (Text.percent_prefix text) as [[tok' rest]|] eqn:P; [|discriminate].
    destruct (Text.skip_spaces rest) eqn:S; [|discriminate]. intros [= ->].
    apply TextFacts.skip_spaces_empty in S.
    destruct (TextFacts.percent_prefix_sound _ _ _ P)
      as (Hne & Ht & a & b & Ha & Hb & E).
    split; [exact Hne|]. split; [exact Ht|]. now exists a, b, rest.
  - intros (Hne & Ht & a & b & c & Ha & Hb & Hc & ->).
    rewrite (TextFacts.percent_prefix_complete a tok b c Hne Ht Ha Hb).
    apply TextFacts.skip_spaces_empty in Hc. now rewrite Hc.
Qed.

(** X16: on an ASCII title, the title pattern finds a percent token after
    an "@" anywhere in the title: a title without "@" gives nothing, a
    result is always a non-empty run of digits and dots standing between an
    "@" and a "%" with only blanks around it, and the first "@" wins when
    such a run follows it. *)
Theorem title_search_finds_token :
  (∀ title, all_chars (λ c, negb (Text.is_at c)) title = true →
     Text.search_at_percent title = None) ∧
  (∀ title tok, all_chars is_ascii title = true →
     Text.search_at_percent title = Some tok →
     tok ≠ EmptyString ∧ all_chars token_char tok = true ∧
     ∃ pre a b post,
       all_chars Text.is_space a = true ∧ all_chars Text.is_space b = true ∧
       title = pre +:+ "@" +:+ a +:+ tok +:+ b +:+ "%" +:+ post) ∧
  (∀ pre a tok b post,
     all_chars (λ c, negb (Text.is_at c)) pre = true →
     tok ≠ EmptyString → all_chars token_char tok = true →
     all_chars Text.is_space a = true → all_chars Text.is_space b = true →
     all_chars is_ascii (pre +:+ "@" +:+ a +:+ tok +:+ b +:+ "%" +:+ post) = true →
     Text.search_at_percent (pre +:+ "@" +:+ a +:+ tok +:+ b +:+ "%" +:+ post)
     = Some tok).
Proof.
  split; [|split].
  - induction title as [|c title IH]; [reflexivity|].
    cbn [all_chars Text.search_at_percent]. intros [Hc Ht]%andb_prop.
    apply negb_true_iff in Hc. rewrite Hc. now apply IH.
  - intros title tok _. revert tok.
    induction title as [|c title IH]; [discriminate|].
    cbn [Text.search_at_percent]. intros tok.
    assert (Text.search_at_percent title = Some tok →
            tok ≠ EmptyString ∧ all_chars token_char tok = true ∧
            ∃ pre a b post,
              all_chars Text.is_space a = true ∧ all_chars Text.is_space b = true ∧
              String c title = pre +:+ "@" +:+ a +:+ tok +:+ b +:+ "%" +:+ post)
      as Later.
    { intros S. destruct (IH tok S) as (Hne & Ht & pre & a & b & post & Ha & Hb & E).
      split; [exact Hne|]. split; [exact Ht|].
      exists (String c pre), a, b, post. rewrite TextFacts.app_cons, <- E. tauto. }
    destruct (Text.is_at c) eqn:Hc; [|exact Later].
    apply TextFacts.at_is in Hc. subst c.
    destruct (Text.percent_prefix title) as [[tok' post]|] eqn:P; [|exact Later].
    intros [= ->].
    destruct (TextFacts.percent_prefix_sound _ _ _ P)
      as (Hne & Ht & a & b & Ha & Hb & E).
    split; [exact Hne|]. split; [exact Ht|].
    exists EmptyString, a, b, post. rewrite E. tauto.
  - intros pre a tok b post Hpre Hne Ht Ha Hb _.
    induction pre as [|c pre IH].
    + rewrite TextFacts.app_nil.
      change ("@" +:+ a +:+ tok +:+ b +:+ "%" +:+ post)
        with (String "@" (a +:+ tok +:+ b +:+ "%" +:+ post)).
      cbn [Text.search_at_percent].
      change (Text.is_at "@") with true. cbn iota.
      now rewrite TextFacts.percent_prefix_complete.
    + cbn [all_chars] in Hpre. apply andb_prop in Hpre as [Hc Hpre].
      apply negb_true_iff in Hc.
      rewrite TextFacts.app_cons. cbn [Text.search_at_percent].
      rewrite Hc. now apply IH.
Qed.

Module NameFacts.

Lemma prefix_split needle s :
  String.prefix needle s = true ↔ ∃ post, s = needle +:+ post.
Proof.
  revert s. induction needle as [|c needle IH]; intros s.
  - split; [|now destruct s]. intros _. now exists s.
  - destruct s as [|d s]; cbn [String.prefix].
    + split; [discriminate|]. intros [post E]. discriminate.
    + destruct (ascii_dec c d) as [->|Hne].
      * rewrite IH. split; intros [post E]; exists post.
        -- now rewrite TextFacts.app_cons, E.
        -- rewrite TextFacts.app_cons in E. congruence.
      * split; [discriminate|]. intros [post E].
        rewrite TextFacts.app_cons in E. congruence.
Qed.

Lemma contains_split needle s :
  Text.contains needle s = true ↔ ∃ pre post, s = pre +:+ needle +:+ post.
Proof.
  induction s as [|c s IH].
  - cbn [Text.contains]. rewrite orb_false_r, prefix_split. split.
    + intros [post E]. now exists EmptyString, post.
    + intros (pre & post & E). destruct pre as [|d pre]; [now exists post|].
      rewrite TextFacts.app_cons in E. discriminate.
  - cbn [Text.contains]. rewrite orb_true_iff, prefix_split, IH. split.
    + intros [[post E]|(pre & post & E)].
      * now exists EmptyString, post.
      * exists (String c pre), post. now rewrite TextFacts.app_cons, E.
    + intros (pre & post & E). destruct pre as [|d pre].
      * left. now exists post.
      * right. exists pre, post. rewrite TextFacts.app_cons in E. congruence.
Qed.

Lemma lower_app a b : Text.lower (a +:+ b) = Text.lower a +:+ Text.lower b.
Proof.
  induction a as [|c a IH]; [reflexivity|].
  rewrite TextFacts.app_cons. cbn [Text.lower]. now rewrite IH.
Qed.

Lemma lower_split s a b :
  Text.lower s = a +:+ b →
  ∃ s1 s2, s = s1 +:+ s2 ∧ Text.lower s1 = a ∧ Text.lower s2 = b.
Proof.
  revert s. induction a as [|c a IH]; intros s E.
  - now exists EmptyString, s.
  - destruct s as [|d s]; [discriminate|].
    rewrite TextFacts.app_cons in E. cbn [Text.lower] in E.
    injection E as Hc E. destruct (IH s E) as (s1 & s2 & -> & <- & <-).
    exists (String d s1), s2. cbn [Text.lower]. now rewrite Hc.
Qed.

Lemma zoom_in_name name :
  Text.contains "zoom" (Text.lower name) = true ↔
  ∃ pre word post, name = pre +:+ word +:+ post ∧ Text.lower word = "zoom".
Proof.
  rewrite contains_split. split.
  - intros (a & b & E).
    destruct (lower_split _ _ _ E) as (pre & rest & -> & _ & E').
    destruct (lower_split _ _ _ E') as (word & post & -> & Hw & _).
    now exists pre, word, post.
  - intros (pre & word & post & -> & Hw).
    exists (Text.lower pre), (Text.lower post). now rewrite !lower_app, Hw.
Qed.

End NameFacts.

(** X17: a widget counts as a zoom control exactly when both of its names
    can be read and one of them holds the word "zoom" in any mix of upper
    and lower case; a widget whose accessible name raises is passed over
    even if its object name holds the word. *)
Theorem zoom_names_ignore_case w :
  names_suggest_zoom w = true ↔
  ∃ object_name accessible_name,
    objectName w = Returns object_name ∧
    accessibleName w = Returns accessible_name ∧
    ∃ pre word post,
      Text.lower word = "zoom" ∧
      (object_name = pre +:+ word +:+ post ∨
       accessible_name = pre +:+ word +:+ post).
Proof.
  unfold names_suggest_zoom.
  destruct (objectName w) as [o|]; cbn.
  2: { split; [discriminate|]. intros (? & ? & [=] & _). }
  destruct (accessibleName w) as [a|]; cbn.
  2: { split; [discriminate|]. intros (? & ? & _ & [=] & _). }
  rewrite orb_true_iff, !NameFacts.zoom_in_name. split.
  - intros [(pre & word & post & E & W)|(pre & word & post & E & W)];
      exists o, a; (split; [reflexivity|]); (split; [reflexivity|]);
      exists pre, word, post; tauto.
  - intros (o' & a' & [= <-] & [= <-] & pre & word & post & W & [E|E]);
      [left|right]; now exists pre, word, post.
Qed.

Module TokenFacts.

Lemma length_app a b :
  String.length (a +:+ b) = (String.length a + String.length b)%nat.
Proof.
  induction a as [|c a IH]; [reflexivity|].
  rewrite TextFacts.app_cons. cbn [String.length]. now rewrite IH.
Qed.

Lemma read_digits_stop acc s :
  starts_with Text.is_digit s = false → Text.read_digits acc s = (acc, s).
Proof. destruct s as [|c s]; [reflexivity|]. cbn. now intros ->. Qed.

Lemma read_digits_app a : ∀ acc s,
  all_chars Text.is_digit a = true →
  Text.read_digits acc (a +:+ s) = Text.read_digits (Text.read_digits acc a).1 s.
Proof.
  induction a as [|c a IH]; intros acc s; [reflexivity|].
  cbn [all_chars]. intros [Hc Ha]%andb_prop.
  rewrite TextFacts.app_cons. cbn [Text.read_digits]. rewrite Hc. now apply IH.
Qed.

Lemma read_digits_all a : ∀ acc,
  all_chars Text.is_digit a = true → (Text.read_digits acc a).2 = EmptyString.
Proof.
  induction a as [|c a IH]; intros acc; [reflexivity|].
  cbn [all_chars]. intros [Hc Ha]%andb_prop.
  cbn [Text.read_digits]. rewrite Hc. now apply IH.
Qed.

Lemma read_digits_whole a acc :
  all_chars Text.is_digit a = true →
  Text.read_digits acc a = ((Text.read_digits acc a).1, EmptyString).
Proof.
  intros Ha. rewrite <- (read_digits_all a acc Ha). now destruct (Text.read_digits acc a).
Qed.

Lemma read_digits_to_dot a rest acc :
  all_chars Text.is_digit a = true →
  Text.read_digits acc (a +:+ "." +:+ rest)
  = ((Text.read_digits acc a).1, String "." rest).
Proof.
  intros Ha. rewrite (read_digits_app a acc _ Ha). now apply read_digits_stop.
Qed.

End TokenFacts.

(** X18: [float] takes a token of digits and dots when it has at most one
    dot and at least one digit, reading the digits before and after the dot
    as one numerator over a power of ten; a second dot, or no digit at all,
    raises. *)
Theorem float_takes_one_dot :
  (∀ a, all_chars Text.is_digit a = true → a ≠ EmptyString →
     Text.float_of_token a
     = Returns (Py.float_of_ratio (Text.read_digits 0 a).1 1)) ∧
  (∀ a b, all_chars Text.is_digit a = true → all_chars Text.is_digit b = true →
     a +:+ b ≠ EmptyString →
     Text.float_of_token (a +:+ "." +:+ b)
     = Returns (Py.float_of_ratio (Text.read_digits 0 (a +:+ b)).1
                  (Z.to_pos (10 ^ Z.of_nat (String.length b))))) ∧
  (∀ a b rest, all_chars Text.is_digit a = true → all_chars Text.is_digit b = true →
     Text.float_of_token (a +:+ "." +:+ b +:+ "." +:+ rest) = Raises) ∧
  Text.float_of_token "." = Raises ∧
  Text.float_of_token EmptyString = Raises.
Proof.
  split; [|split; [|split; [|split; reflexivity]]].
  - intros a Ha Hne. unfold Text.float_of_token.
    rewrite (TokenFacts.read_digits_whole a 0%N Ha).
    destruct a as [|c a]; [congruence|]. cbn [String.length Nat.sub Nat.eqb].
    reflexivity.
  - intros a b Ha Hb Hne. unfold Text.float_of_token.
    rewrite (TokenFacts.read_digits_to_dot a b 0%N Ha).
    rewrite (TokenFacts.read_digits_whole b _ Hb).
    rewrite <- (TokenFacts.read_digits_app a 0%N b Ha).
    change (Text.is_dot ".") with true. cbn [negb orb].
    rewrite TokenFacts.length_app.
    change (String.length ("." +:+ b)) with (S (String.length b)).
    cbn [String.length].
    replace (String.length a + S (String.length b) - S (String.length b))%nat
      with (String.length a) by lia.
    destruct (String.length a + String.length b =? 0)%nat eqn:Z; [|reflexivity].
    apply Nat.eqb_eq in Z. destruct a, b; cbn in Z; try lia. now destruct Hne.
  - intros a b rest Ha Hb. unfold Text.float_of_token.
    rewrite (TokenFacts.read_digits_to_dot a _ 0%N Ha).
    rewrite (TokenFacts.read_digits_to_dot b rest _ Hb). reflexivity.
Qed.

Lemma first_percent_skip skipped rest :
  Forall (λ w, read_percent_text w = Returns None) skipped →
  first_percent (skipped ++ rest) = first_percent rest.
Proof.
  induction 1 as [|w skipped Hw _ IH]; [reflexivity|].
  cbn [app first_percent]. now rewrite Hw.
Qed.

(** X19: where the controls read show ASCII text, the scan takes the first
    zoom control whose text is a percent token and stops there.  If [float]
    takes the token, the result is that value over 100, whatever later
    controls, the status bar and the title hold; if [float] rejects it, the
    scan gives up with no value, and neither the later controls nor the
    title are tried. *)
Theorem ui_scan_takes_first_reading h w q children skipped control rest text tok :
  instance h = true →
  activeWindow h = Returns (Some w) →
  qwindow h w = Returns (Some q) →
  findChildren q = Returns children →
  filter (λ w, names_suggest_zoom w = true) children = skipped ++ control :: rest →
  Forall (λ w, ascii_text w = true) (skipped ++ [control]) →
  Forall (λ w, read_percent_text w = Returns None) skipped →
  widget_text control = Returns text →
  Text.match_percent text = Some tok →
  _zoom_scale_from_ui h =
  match Text.float_of_token tok with
  | Returns v => Some (v / 100)%float
  | Raises => None
  end.
Proof.
  intros I W Q C N _ S T M. unfold _zoom_scale_from_ui.
  rewrite I, W. cbn. rewrite Q. cbn. rewrite C. cbn. rewrite N.
  destruct (skipped ++ control :: rest) as [|first others] eqn:E;
    [now destruct skipped|].
  rewrite <- E. cbn. rewrite (first_percent_skip _ _ S).
  cbn [first_percent]. unfold read_percent_text at 1. rewrite T, M.
  now destruct (Text.float_of_token tok).
Qed.

(** X20: where the zoom controls and the title show ASCII text: when there
    are zoom controls but none of them shows a percent token, the status bar
    is not consulted and the title decides: its token over 100, or no value
    when the title has none or [float] rejects it. *)
Theorem ui_scan_falls_back_to_title h w q children title :
  instance h = true →
  activeWindow h = Returns (Some w) →
  qwindow h w = Returns (Some q) →
  findChildren q = Returns children →
  let named := filter (λ w, names_suggest_zoom w = true) children in
  named ≠ [] →
  Forall (λ w, ascii_text w = true) named →
  Forall (λ w, read_percent_text w = Returns None) named →
  windowTitle q = Returns title →
  all_chars is_ascii title = true →
  _zoom_scale_from_ui h =
  match Text.search_at_percent title with
  | Some tok =>
      match Text.float_of_token tok with
      | Returns v => Some (v / 100)%float
      | Raises => None
      end
  | None => None
  end.
Proof.
  intros I W Q C named N _ S T _. unfold _zoom_scale_from_ui.
  rewrite I, W. cbn. rewrite Q. cbn. rewrite C. cbn. fold named.
  assert (first_percent named = Returns None) as F
    by (rewrite <- (app_nil_r named); now rewrite (first_percent_skip _ _ S)).
  destruct named as [|first others] eqn:E; [congruence|].
  cbn -[first_percent]. rewrite F. cbn. rewrite T. cbn.
  destruct (Text.search_at_percent title) as [tok|]; [|reflexivity].
  now destruct (Text.float_of_token tok).
Qed.

(** ** Cursor loading *)

Module CursorFacts.
Import Cursor.

Lemma preferred_size target :
  let preferred := first_at_least target available_sizes 96 in
  In preferred available_sizes ∧
  (target ≤ 96 →
   target ≤ preferred ∧
   ∀ size, In size available_sizes → target ≤ size → preferred ≤ size)%Z ∧
  (96 < target → preferred = 96)%Z.
Proof.
  unfold available_sizes. cbn [first_at_least].
  repeat match goal with
    | |- context [(?a >=? ?b)%Z] => destruct (Z.geb_spec a b)
    end; cbn [In]; (split; [tauto|]); (split; [|lia]); intros; (split; [lia|]);
    intros size; intuition lia.
Qed.

Lemma first_existing_smallest d sizes :
  match first_existing d sizes with
  | Some size =>
      exists_ d (icon_file size) = true ∧
      ∃ before after, sizes = before ++ size :: after ∧
        Forall (λ smaller, exists_ d (icon_file smaller) = false) before
  | None => Forall (λ size, exists_ d (icon_file size) = false) sizes
  end.
Proof.
  induction sizes as [|size sizes IH]; [constructor|].
  cbn [first_existing]. destruct (exists_ d (icon_file size)) eqn:E.
  - split; [exact E|]. now exists [], sizes.
  - destruct (first_existing d sizes) as [found|].
    + destruct IH as (F & before & after & -> & Hb). split; [exact F|].
      exists (size :: before), after. split; [reflexivity|]. now constructor.
    + now constructor.
Qed.

(** What [_get_cursor_icon_path] returns, once the target size is known. *)
Lemma icon_path_cases d target :
  int_of_float (24 * device_pixel_ratio d) = Returns target →
  let preferred := first_at_least target available_sizes 96 in
  _get_cursor_icon_path d =
  Returns
    (if exists_ d (icon_file preferred) then (icon_file preferred, preferred)
     else match first_existing d available_sizes with
          | Some size => (icon_file size, size)
          | None => (icon_file preferred, preferred)
          end,
     device_pixel_ratio d).
Proof.
  intros T. unfold _get_cursor_icon_path. rewrite T. cbn [mbind outcome_bind].
  change (List.last available_sizes 0%Z) with 96%Z.
  destruct (exists_ d (icon_file _)); cbn [negb]; [reflexivity|].
  now destruct (first_existing d available_sizes).
Qed.

End CursorFacts.

(** X21: the icon asked for first is the smallest of 24, 32, 48, 64 and 96
    that reaches 24 device pixels times the screen's ratio, and 96 when none
    does; when its file exists, that file is the one returned. *)
Theorem cursor_prefers_smallest_fit d target :
  Cursor.int_of_float (24 * Cursor.device_pixel_ratio d) = Returns target →
  let preferred := Cursor.first_at_least target Cursor.available_sizes 96 in
  In preferred Cursor.available_sizes ∧
  (target ≤ 96 →
   target ≤ preferred ∧
   ∀ size, In size Cursor.available_sizes → target ≤ size → preferred ≤ size)%Z ∧
  (96 < target → preferred = 96)%Z ∧
  (Cursor.exists_ d (Cursor.icon_file preferred) = true →
   Cursor._get_cursor_icon_path d
   = Returns (Cursor.icon_file preferred, preferred, Cursor.device_pixel_ratio d)).
Proof.
  intros T preferred.
  destruct (CursorFacts.preferred_size target) as (In_ & Fit & Big).
  split; [exact In_|]. split; [exact Fit|]. split; [exact Big|].
  intros E. rewrite (CursorFacts.icon_path_cases d target T). cbn zeta.
  fold preferred. now rewrite E.
Qed.

(** X22: whatever the files present, the path returned names the icon of
    one of the five sizes; it is a missing file only when no icon file
    exists at all; and when the preferred file is missing, the file taken is
    the smallest one that exists, be it smaller than the target. *)
Theorem cursor_falls_back_to_smallest d target :
  Cursor.int_of_float (24 * Cursor.device_pixel_ratio d) = Returns target →
  ∃ size,
    Cursor._get_cursor_icon_path d
    = Returns (Cursor.icon_file size, size, Cursor.device_pixel_ratio d) ∧
    In size Cursor.available_sizes ∧
    (Cursor.exists_ d (Cursor.icon_file size) = false →
     ∀ other, In other Cursor.available_sizes →
       Cursor.exists_ d (Cursor.icon_file other) = false) ∧
    (Cursor.exists_ d
       (Cursor.icon_file (Cursor.first_at_least target Cursor.available_sizes 96))
     = false →
     ∀ smaller, In smaller Cursor.available_sizes → (smaller < size)%Z →
       Cursor.exists_ d (Cursor.icon_file smaller) = false).
Proof.
  intros T. rewrite (CursorFacts.icon_path_cases d target T). cbn zeta.
  destruct (CursorFacts.preferred_size target) as (In_ & _).
  destruct (Cursor.exists_ d (Cursor.icon_file
              (Cursor.first_at_least target Cursor.available_sizes 96))) eqn:E.
  - eexists; split; [reflexivity|]. split; [exact In_|]. split; congruence.
  - pose proof (CursorFacts.first_existing_smallest d Cursor.available_sizes) as F.
    destruct (Cursor.first_existing d Cursor.available_sizes) as [found|].
    + destruct F as (Ex & before & after & Split & Missing).
      eexists; split; [reflexivity|].
      split; [rewrite Split; apply in_or_app; right; now left|].
      split; [congruence|]. intros _ smaller Hin Hlt.
      rewrite Forall_forall in Missing. apply Missing.
      rewrite Split in Hin. apply list_elem_of_In.
      unfold Cursor.available_sizes in Split.
      destruct before as [|b0 [|b1 [|b2 [|b3 [|b4 [|b5 before]]]]]];
        cbn in Split; injection Split as <-; subst; cbn in Hin;
        repeat match goal with
          | H : _ = _ :: _ |- _ => injection H as <-
          | H : [] = _ :: _ |- _ => discriminate H
          end; subst; cbn in *;
        try (destruct before; discriminate);
        rewrite ?elem_of_cons; intuition lia.
    + eexists; split; [reflexivity|]. split; [exact In_|].
      rewrite Forall_forall in F. split.
      * intros _ other Hin. apply F. now apply list_elem_of_In.
      * intros _ smaller Hin _. apply F. now apply list_elem_of_In.
Qed.

Module RatioFacts.

Lemma nan_is x : is_nan x = true → x = nan.
Proof.
  unfold is_nan. rewrite negb_true_iff, FloatOrder.eqb_rank.
  unfold FloatOrder.on_ranks. intros H. apply Prim2SF_inj.
  destruct (Prim2SF x) as [[]|[]| |[] m e]; cbn in H; try discriminate;
    try reflexivity; lia.
Qed.

Lemma zero_is x : (x =? 0)%float = true → x = 0%float ∨ x = (-0)%float.
Proof.
  rewrite FloatOrder.eqb_rank. unfold FloatOrder.on_ranks.
  change (Prim2SF 0) with (S754_zero false). intros H.
  destruct (Prim2SF x) as [[]|[]| |[] m e] eqn:E; cbn in H; try discriminate;
    [right | left]; apply Prim2SF_inj; rewrite E; reflexivity.
Qed.

Lemma infinity_is x : is_infinity x = true → x = infinity ∨ x = neg_infinity.
Proof.
  unfold is_infinity. rewrite FloatOrder.eqb_rank. unfold FloatOrder.on_ranks.
  rewrite abs_spec. change (Prim2SF infinity) with (S754_infinity false). intros H.
  destruct (Prim2SF x) as [[]|[]| |[] m e] eqn:E; cbn in H; try discriminate;
    [right | left]; apply Prim2SF_inj; rewrite E; reflexivity.
Qed.

End RatioFacts.

Lemma icon_path_shape d path size dpr :
  Cursor._get_cursor_icon_path d = Returns (path, size, dpr) →
  path = Cursor.icon_file size ∧ In size Cursor.available_sizes ∧
  dpr = Cursor.device_pixel_ratio d ∧
  (Cursor.exists_ d path = false →
   ∀ other, In other Cursor.available_sizes →
     Cursor.exists_ d (Cursor.icon_file other) = false).
Proof.
  destruct (Cursor.int_of_float (24 * Cursor.device_pixel_ratio d)) as [target|] eqn:T.
  2: { unfold Cursor._get_cursor_icon_path. rewrite T. discriminate. }
  rewrite (CursorFacts.icon_path_cases d target T). cbn zeta.
  destruct (CursorFacts.preferred_size target) as (In_ & _).
  destruct (Cursor.exists_ d (Cursor.icon_file
              (Cursor.first_at_least target Cursor.available_sizes 96))) eqn:E.
  - intros [= <- <- <-].
    split; [reflexivity|]. split; [exact In_|]. split; [reflexivity|].
    intros Missing. exfalso. apply diff_true_false. rewrite <- E. exact Missing.
  - pose proof (CursorFacts.first_existing_smallest d Cursor.available_sizes) as F.
    destruct (Cursor.first_existing d Cursor.available_sizes) as [found|].
    + destruct F as (Ex & before & after & Split & _).
      intros [= <- <- <-]. split; [reflexivity|]. split.
      { rewrite Split. apply in_or_app. right. now left. }
      split; [reflexivity|]. intros Missing.
      exfalso. apply diff_true_false. rewrite <- Ex. exact Missing.
    + intros [= <- <- <-]. split; [reflexivity|]. split; [exact In_|].
      split; [reflexivity|].
      intros _ other Hin. rewrite Forall_forall in F. apply F.
      now apply list_elem_of_In.
Qed.

(** X23: loading the cursor never fails.  A pixmap cursor is always made
    from an existing, readable file of one of the five icon sizes, with the
    screen's ratio and a hot spot on the diagonal; with no icon file at all
    the system's horizontal-resize cursor is used, and so it is when the
    screen reports a ratio that is zero, infinite or not a number. *)
Theorem cursor_is_loaded_or_default d :
  (∀ path ratio hot_x hot_y,
     Cursor._load_cursor d = Cursor.Pixmap path ratio hot_x hot_y →
     Cursor.exists_ d path = true ∧ Cursor.isNull d path = false ∧
     ratio = Cursor.device_pixel_ratio d ∧ hot_x = hot_y ∧
     ∃ size, In size Cursor.available_sizes ∧ path = Cursor.icon_file size) ∧
  ((∀ size, In size Cursor.available_sizes →
      Cursor.exists_ d (Cursor.icon_file size) = false) →
   Cursor._load_cursor d = Cursor.SizeHorCursor) ∧
  ((Cursor.device_pixel_ratio d =? 0)%float = true ∨
   is_nan (Cursor.device_pixel_ratio d) = true ∨
   is_infinity (Cursor.device_pixel_ratio d) = true →
   Cursor._load_cursor d = Cursor.SizeHorCursor).
Proof.
  split; [|split].
  - intros path ratio hot_x hot_y. unfold Cursor._load_cursor.
    destruct (Cursor._get_cursor_icon_path d) as [[[p s] r]|] eqn:G;
      [|discriminate].
    destruct (icon_path_shape d p s r G) as (-> & Hin & -> & _).
    cbn [mbind outcome_bind].
    destruct (Cursor.exists_ d (Cursor.icon_file s)) eqn:E; [|discriminate].
    destruct (Cursor.isNull d (Cursor.icon_file s)) eqn:N; [discriminate|].
    cbn [negb].
    destruct (Py.float_of_int s) as [fs|]; [|discriminate]. cbn [mbind outcome_bind].
    destruct (Py.truediv fs _) as [quotient|]; [|discriminate].
    cbn [mbind outcome_bind].
    destruct (Cursor.int_of_float quotient) as [hotspot|]; [|discriminate].
    cbn. intros [= <- <- <- <-]. repeat split; try assumption. now exists s.
  - intros Missing. unfold Cursor._load_cursor.
    destruct (Cursor._get_cursor_icon_path d) as [[[p s] r]|] eqn:G;
      [|reflexivity].
    destruct (icon_path_shape d p s r G) as (-> & Hin & -> & _).
    cbn [mbind outcome_bind]. now rewrite (Missing s Hin).
  - intros Bad. unfold Cursor._load_cursor, Cursor._get_cursor_icon_path.
    assert (Cursor.int_of_float (24 * Cursor.device_pixel_ratio d) = Raises ∨
            (4 * Cursor.device_pixel_ratio d =? 0)%float = true) as [T|Z].
    { destruct Bad as [Z|[N|I]].
      - right. destruct (RatioFacts.zero_is _ Z) as [-> | ->]; reflexivity.
      - left. now rewrite (RatioFacts.nan_is _ N).
      - left. destruct (RatioFacts.infinity_is _ I) as [-> | ->]; reflexivity. }
    + rewrite T. reflexivity.
    + destruct (Cursor.int_of_float _) as [target|]; [|reflexivity].
      cbn [mbind outcome_bind].
      assert (∀ p s,
        try_except
          ('(cursor_path, icon_size, dpr) ←
             Returns (p, s, Cursor.device_pixel_ratio d);
           if Cursor.exists_ d cursor_path then
             if negb (Cursor.isNull d cursor_path) then
               size ← Py.float_of_int icon_size;
               quotient ← Py.truediv size (4 * dpr);
               hotspot ← Cursor.int_of_float quotient;
               Returns (Some (Cursor.Pixmap cursor_path dpr hotspot hotspot))
             else Returns None
           else Returns None) None = None) as Fails.
      { intros p s. cbn [mbind outcome_bind].
        destruct (Cursor.exists_ d p); [|reflexivity].
        destruct (negb (Cursor.isNull d p)); [|reflexivity].
        destruct (Py.float_of_int s) as [fs|]; [|reflexivity].
        cbn [mbind outcome_bind]. unfold Py.truediv. now rewrite Z. }
      destruct (negb _); [destruct (Cursor.first_existing _ _)|];
        now rewrite Fails.
Qed.

(** ** The further theorems at work on the samples *)

Lemma unconsumed_event_changes_nothing_witness :
  let h := Sample.krita (Py.Float 4.1667) (Py.Int 300) [] "a.kra" "/a.kra" in
  (eventFilter Libm.pow2 h (Sample.move 5) (Sample.armed h)).2 = Sample.armed h.
Proof.
  intros h. apply unconsumed_event_changes_nothing.
  - vm_compute. reflexivity.
  - discriminate.
Defined.

Lemma cursor_pushed_once_witness :
  let h := Sample.krita (Py.Float 4.1667) (Py.Int 300) [] "a.kra" "/a.kra" in
  let again := activate_zoom_mode h (Sample.dragging h 100) in
  override_cursors again = 1 ∧ filter_installed again = true.
Proof.
  intros h again.
  destruct (cursor_pushed_once Libm.pow2 again) as [Depth Installed].
  - apply reach_activate, (reach_event Libm.pow2 h (Sample.press 100)),
      reach_activate, reach_init.
  - split; [exact Depth|]. apply Installed. vm_compute. reflexivity.
Defined.

Lemma press_then_release_witness :
  let h := Sample.krita (Py.Float 4.1667) (Py.Int 300) [] "a.kra" "/a.kra" in
  let pressed := eventFilter Libm.pow2 h (Sample.press 100) (Sample.armed h) in
  let released :=
    eventFilter Libm.pow2 h (MouseButtonRelease LeftButton) pressed.2 in
  released.1 = Returns true ∧ zoom_mode_active released.2 = true ∧
  is_dragging released.2 = false ∧ active_view released.2 = None.
Proof.
  intros h pressed released.
  destruct (press_then_release Libm.pow2 h h {| x := 100; y := 0 |} Raises
              (Sample.armed h))
    as (_ & _ & _ & Consumed & Mode & Drag & View & _);
    [vm_compute; reflexivity | vm_compute; reflexivity |].
  split; [exact Consumed|]. split; [exact Mode|]. split; [exact Drag | exact View].
Defined.

Lemma aborted_press_is_consumed_witness :
  let h := Sample.krita (Py.Float 4.1667) (Py.Int 300) [] "a.kra" "/a.kra" in
  let pressed := eventFilter Libm.pow2 Sample.empty (Sample.press 100) (Sample.armed h) in
  pressed.1 = Returns true ∧ idle pressed.2.
Proof.
  intros h pressed.
  destruct (aborted_press_is_consumed Libm.pow2 Sample.empty
              (Returns {| x := 100; y := 0 |}) Raises (Sample.armed h))
    as (Consumed & Idle & _).
  - vm_compute. reflexivity.
  - left. vm_compute. reflexivity.
  - split; [exact Consumed | exact Idle].
Defined.

Lemma requests_stay_in_range_witness :
  let h := Sample.krita (Py.Float 4.1667) (Py.Int 300) [] "a.kra" "/a.kra" in
  let moved := (eventFilter Libm.pow2 h (Sample.move 250) (Sample.dragging h 100)).2 in
  zoom_requests moved ≠ [] ∧
  Forall (λ request, in_range request.2 = true) (zoom_requests moved).
Proof.
  intros h moved. split; [vm_compute; discriminate|].
  apply (requests_stay_in_range Libm.pow2).
  apply (reach_event Libm.pow2 h (Sample.move 250)),
    (reach_event Libm.pow2 h (Sample.press 100)), reach_activate, reach_init.
Defined.

Lemma drag_is_positional_witness :
  let h := Sample.krita (Py.Float 1) (Py.Int 72) [] "a.kra" "/a.kra" in
  let self := Sample.dragging h 100 in
  let far := Some {| x := 400; y := 0 |} in
  let near := Some {| x := 250; y := 0 |} in
  last_set_zoom_scale (update_zoom Libm.pow2 h near (update_zoom Libm.pow2 h far self))
  = last_set_zoom_scale (update_zoom Libm.pow2 h near self).
Proof.
  intros h self far near.
  refine (proj2 (drag_is_positional Libm.pow2 h far h near self
                   [(1%N, 2%float)] _) _).
  - vm_compute. reflexivity.
  - discriminate.
Defined.

Lemma cache_remembers_press_witness :
  let h := Sample.krita (Py.Float 2) (Py.Int 72) [] "a.kra" "/a.kra" in
  let later := Sample.no_canvas [Sample.label "zoomLabel" "66.7%"] "a.kra" "/a.kra" in
  let pressed := (start_drag h (Some {| x := 100; y := 0 |}) (Sample.armed h)).2 in
  _get_current_zoom_scale later pressed (Some 1%N)
  = Returns (initial_zoom_scale pressed).
Proof.
  intros h later pressed.
  refine (proj2 (proj2 (cache_remembers_press h {| x := 100; y := 0 |}
                          (Sample.armed h) "/a.kra" _ _)) later (Some 1%N) _ _);
    vm_compute; reflexivity.
Defined.

Lemma cache_follows_drag_witness :
  let h := Sample.krita (Py.Float 1) (Py.Int 72) [] "a.kra" "/a.kra" in
  let later := Sample.no_canvas [] "a.kra" "/a.kra" in
  let moved :=
    update_zoom Libm.pow2 h (Some {| x := 250; y := 0 |}) (Sample.dragging h 100) in
  document_zoom_cache moved !! "/a.kra" = Some 2%float ∧
  _get_current_zoom_scale later moved (Some 1%N) = Returns 2%float.
Proof.
  intros h later moved.
  destruct (cache_follows_drag Libm.pow2 h (Some {| x := 250; y := 0 |})
              (Sample.dragging h 100) "/a.kra" 1%N 2%float)
    as (_ & Stored & Later); [vm_compute; reflexivity | vm_compute; reflexivity |].
  split; [exact Stored|]. apply Later; vm_compute; reflexivity.
Defined.

Lemma cache_never_forgets_witness :
  let h := Sample.krita (Py.Float 2) (Py.Int 72) [] "a.kra" "/a.kra" in
  let other := Sample.krita (Py.Float 3) (Py.Int 72) [] "b.kra" "/b.kra" in
  let first := Sample.dragging h 100 in
  let second := (eventFilter Libm.pow2 other (Sample.press 7) first).2 in
  document_zoom_cache second !! "/a.kra" = Some 2%float.
Proof.
  intros h other first second. subst second.
  rewrite (proj2 (cache_never_forgets Libm.pow2 other (Sample.press 7) first "/a.kra")).
  - vm_compute. reflexivity.
  - vm_compute. discriminate.
Defined.

Lemma document_ids_tell_documents_apart_witness :
  _get_document_id (Scene.untitled 140234) ≠ _get_document_id (Scene.untitled 140235).
Proof.
  apply (proj1 (proj2 (document_ids_tell_documents_apart
                         (Scene.untitled 140234) (Scene.untitled 140235)
                         1%N 1%N EmptyString eq_refl eq_refl eq_refl eq_refl)));
    [reflexivity | reflexivity | vm_compute; discriminate].
Defined.

Lemma reference_dpi_returns_raw_witness :
  let h := Sample.krita (Py.Float 2.5) (Py.Int 72)
             [Sample.label "zoomLabel" "50%"] "a.kra" "/a.kra" in
  _get_current_zoom_scale h __init__ (Some 1%N) = Returns 2.5%float.
Proof.
  intros h.
  apply (reference_dpi_returns_raw h __init__ (Some 1%N) 2.5%float);
    vm_compute; reflexivity.
Defined.

Lemma estimate_is_raw_or_corrected_witness :
  let h := Sample.krita (Py.Float 4.1667) (Py.Int 300) [] "a.kra" "/a.kra" in
  _get_current_zoom_scale h (Sample.dragging h 100) (Some 1%N)
  = _get_current_zoom_scale h __init__ (Some 1%N).
Proof.
  intros h.
  apply (proj2 (estimate_is_raw_or_corrected h __init__ (Some 1%N) 4.1667%float
                  ltac:(vm_compute; reflexivity))).
Defined.

Lemma clamp_saturates_witness :
  clamp_scale 0.005 = 0.01%float ∧ clamp_scale 500 = 256%float ∧
  clamp_scale nan = 256%float.
Proof.
  destruct clamp_saturates as (Low & High & NaN & _).
  split; [|split]; [apply Low | apply High | apply NaN]; reflexivity.
Defined.

Lemma match_percent_exactly_witness :
  Text.match_percent " 66.7 % " = Some "66.7".
Proof.
  apply match_percent_exactly. split; [discriminate|]. split; [reflexivity|].
  exists " ", " ", " ". repeat split.
Defined.

Lemma title_search_finds_token_witness :
  Text.search_at_percent "a.kra @ 50 % - Krita" = Some "50".
Proof.
  apply (proj2 (proj2 title_search_finds_token) "a.kra " " " "50" " " " - Krita");
    [reflexivity | discriminate | reflexivity | reflexivity | reflexivity
    | reflexivity].
Defined.

Lemma zoom_names_ignore_case_witness :
  names_suggest_zoom (Sample.label "KisZOOMWidget" "100%") = true ∧
  names_suggest_zoom (Scene.nameless "KisZOOMWidget" "100%") = false.
Proof.
  split.
  - apply zoom_names_ignore_case. exists "KisZOOMWidget", EmptyString.
    split; [reflexivity|]. split; [reflexivity|].
    exists "Kis", "ZOOM", "Widget". split; [reflexivity|]. now left.
  - apply not_true_is_false. intros Named.
    apply zoom_names_ignore_case in Named.
    destruct Named as (o & a & _ & Readable & _). discriminate Readable.
Defined.

Lemma float_takes_one_dot_witness :
  Text.float_of_token "66.7" = Returns (Py.float_of_ratio 667 10) ∧
  Text.float_of_token "1.2.3" = Raises.
Proof.
  destruct float_takes_one_dot as (_ & Dotted & Twice & _). split.
  - apply (Dotted "66" "7"); [reflexivity | reflexivity | discriminate].
  - apply (Twice "1" "2" "3"); reflexivity.
Defined.

Lemma ui_scan_takes_first_reading_witness :
  let bad := Sample.krita (Py.Float 1) (Py.Int 72)
               [Sample.label "zoomA" "n/a"; Sample.label "zoomB" "1.2.3%";
                Sample.label "zoomC" "50%"] "a.kra @ 50%" "/a.kra" in
  let good := Sample.krita (Py.Float 1) (Py.Int 72)
               [Sample.label "zoomA" "n/a"; Sample.label "zoomB" "66.7%";
                Sample.label "zoomC" "50%"] "a.kra @ 50%" "/a.kra" in
  _zoom_scale_from_ui bad = None ∧
  _zoom_scale_from_ui good = Some (Py.float_of_ratio 667 10 / 100)%float.
Proof.
  intros bad good. split.
  - refine (ui_scan_takes_first_reading bad 1%N _ _ [Sample.label "zoomA" "n/a"]
              (Sample.label "zoomB" "1.2.3%") [Sample.label "zoomC" "50%"]
              "1.2.3%" "1.2.3" eq_refl eq_refl eq_refl eq_refl _ _ _ eq_refl _).
    + vm_compute. reflexivity.
    + repeat constructor.
    + repeat constructor.
    + vm_compute. reflexivity.
  - refine (ui_scan_takes_first_reading good 1%N _ _ [Sample.label "zoomA" "n/a"]
              (Sample.label "zoomB" "66.7%") [Sample.label "zoomC" "50%"]
              "66.7%" "66.7" eq_refl eq_refl eq_refl eq_refl _ _ _ eq_refl _).
    + vm_compute. reflexivity.
    + repeat constructor.
    + repeat constructor.
    + vm_compute. reflexivity.
Defined.

Lemma ui_scan_falls_back_to_title_witness :
  let h := Sample.krita (Py.Float 1) (Py.Int 72)
             [Sample.label "zoomA" "n/a"; Sample.label "opacity" "80%"]
             "a.kra @ 50% - Krita" "/a.kra" in
  _zoom_scale_from_ui h = Some (Py.float_of_ratio 50 1 / 100)%float.
Proof.
  intros h.
  refine (ui_scan_falls_back_to_title h 1%N _ _ "a.kra @ 50% - Krita"
            eq_refl eq_refl eq_refl eq_refl _ _ _ eq_refl eq_refl).
  - vm_compute. discriminate.
  - vm_compute. repeat constructor.
  - vm_compute. repeat constructor.
Defined.

Lemma cursor_prefers_smallest_fit_witness :
  Cursor._get_cursor_icon_path (Cursor.desk 1.5 Cursor.available_sizes)
  = Returns ("zoomin48.png", 48%Z, 1.5%float).
Proof.
  apply (proj2 (proj2 (proj2 (cursor_prefers_smallest_fit
           (Cursor.desk 1.5 Cursor.available_sizes) 36
           ltac:(vm_compute; reflexivity))))).
  vm_compute. reflexivity.
Defined.

Lemma cursor_falls_back_to_smallest_witness :
  ∃ size,
    Cursor._get_cursor_icon_path (Cursor.desk 2 [24; 32; 64]%Z)
    = Returns (Cursor.icon_file size, size, 2%float) ∧
    In size Cursor.available_sizes.
Proof.
  destruct (cursor_falls_back_to_smallest (Cursor.desk 2 [24; 32; 64]%Z) 48
              ltac:(vm_compute; reflexivity)) as (size & Path & Known & _).
  exists size. split; [exact Path | exact Known].
Defined.

Lemma cursor_is_loaded_or_default_witness :
  Cursor._load_cursor (Cursor.desk 1 []) = Cursor.SizeHorCursor ∧
  Cursor._load_cursor (Cursor.desk 0 Cursor.available_sizes) = Cursor.SizeHorCursor.
Proof.
  split.
  - apply (proj1 (proj2 (cursor_is_loaded_or_default (Cursor.desk 1 [])))).
    intros size _. reflexivity.
  - apply (proj2 (proj2 (cursor_is_loaded_or_default
                           (Cursor.desk 0 Cursor.available_sizes)))).
    left. reflexivity.
Defined.
